(** * borne-server: order lifecycle, stock adjustment and order numbering

    A shallow embedding of the socket server of the ordering kiosk
    (the TypeScript entry point, compiled to [dist/index.js], over the tables
    of [prisma/schema.prisma]) and the properties of its order lifecycle, of
    its registry of connected clients and of its payment methods.

    The database, the console and the emitted socket events form one [World]
    value that the handlers thread through an error monad which keeps the
    state reached when an exception is thrown (nothing in the source rolls
    back).  A handler runs to completion before the next one starts: the
    interleaving of asynchronous handlers at their [await] points is not part
    of this model.

    The store is the one of the schema: its [Int] columns hold 32-bit
    integers, its [Float] columns finite doubles, a create is checked against
    the columns of its model, and a query without [orderBy] returns its rows
    in an order of the store's own. *)

From Stdlib Require Import Ascii.
From Stdlib Require Import Floats.PrimFloat.
From stdpp Require Import base option list gmap strings pretty infinite.

Local Open Scope string_scope.
Local Open Scope Z_scope.

(** ** JavaScript values and string helpers *)

Module JS.

(** A JavaScript number: an IEEE 754 double. *)
Definition Number : Set := float.

(** [Number.isFinite(x)]: neither NaN nor an infinity. *)
Definition isFinite (x : Number) : bool := negb (is_nan x || is_infinity x).

(** [parseFloat(v)] for a field that holds a number or is [undefined]: the
    number is printed and read back, which gives the number itself, without
    the sign of a zero; [undefined] gives NaN. *)
Definition parseFloat (v : option Number) : Number :=
  match v with
  | Some x => if is_zero x then zero else x
  | None => nan
  end.

(** [s.padStart(n, fill)]: [fill] is repeated, and cut, in front of [s]
    until the result has [n] characters; a longer [s] is left alone. *)
Fixpoint fill_prefix (k : nat) (fill cur : string) : string :=
  match k with
  | O => EmptyString
  | S k' =>
      match cur with
      | String c rest => String c (fill_prefix k' fill rest)
      | EmptyString =>
          match fill with
          | String c rest => String c (fill_prefix k' fill rest)
          | EmptyString => EmptyString
          end
      end
  end.

Definition padStart (n : nat) (fill s : string) : string :=
  fill_prefix (n - String.length s)%nat fill fill +:+ s.

(** [String(n)] for an integer: its decimal digits, with a minus sign. *)
Definition String_of_int (n : Z) : string := pretty n.

(** [s.slice(0, n)] *)
Definition slice0 (n : nat) (s : string) : string := String.substring 0 n s.

(** [s.replace(/-/g, empty)]: every dash is removed. *)
Fixpoint remove_dashes (s : string) : string :=
  match s with
  | EmptyString => EmptyString
  | String c rest =>
      if Ascii.eqb c "-"%char then remove_dashes rest
      else String c (remove_dashes rest)
  end.

(** The truth value of an optional string in a condition: [undefined] and
    the empty string are falsy. *)
Definition truthy (s : option string) : bool :=
  match s with
  | Some (String c rest) => true
  | _ => false
  end.

(** [a || b] on optional strings. *)
Definition or_string (s : option string) (dflt : string) : string :=
  match s with
  | Some (String c rest) => String c rest
  | _ => dflt
  end.

(** [q || 1] on an optional integer ([undefined] and [0] are falsy). *)
Definition or_one (q : option Z) : Z :=
  match q with
  | Some 0 => 1
  | Some n => n
  | None => 1
  end.

(** [c.toUpperCase()] on one byte of the UTF-8 form of a string: the letters
    a to z are moved to A to Z, every other byte is kept.  On a string in
    ASCII this is [String.prototype.toUpperCase]. *)
Definition upper_char (c : ascii) : ascii :=
  let n := N_of_ascii c in
  if ((97 <=? n) && (n <=? 122))%N then ascii_of_N (n - 32) else c.

Fixpoint toUpperCase (s : string) : string :=
  match s with
  | EmptyString => EmptyString
  | String c rest => String (upper_char c) (toUpperCase rest)
  end.

End JS.

(** ** The [Date] object

    A date is its time value, the milliseconds since the epoch, UTC.  The
    time zone of the process gives the offset of local time, in milliseconds
    east of UTC, at a UTC time value ([utc_offset]) and for a local time value
    ([local_offset], where a local time that a change of offset skips or
    repeats is read with the offset in force before the change).  Time values
    are taken within the range of [Date]. *)

Module Date.

Definition msPerDay : Z := 86400000.

Record Zone : Set := mkZone {
  utc_offset : Z → Z;
  local_offset : Z → Z
}.

(** A zone without change of offset, [minutes] east of UTC. *)
Definition fixed (minutes : Z) : Zone :=
  mkZone (λ _, minutes * 60000) (λ _, minutes * 60000).

(** A zone that is [before] minutes east of UTC up to the UTC time value
    [change], and [after] minutes from then on. *)
Definition changing (before after : Z) (change : Z) : Zone :=
  mkZone (λ t, if t <? change then before * 60000 else after * 60000)
         (λ tl, if tl <? change + Z.max before after * 60000
                then before * 60000 else after * 60000).

(** Year, month and day of a day number counted from 1970-01-01
    (proleptic Gregorian calendar). *)
Definition civil_from_days (days : Z) : Z * Z * Z :=
  let z := days + 719468 in
  let era := z / 146097 in
  let doe := z - era * 146097 in
  let yoe := (doe - doe / 1460 + doe / 36524 - doe / 146096) / 365 in
  let y := yoe + era * 400 in
  let doy := doe - (365 * yoe + yoe / 4 - yoe / 100) in
  let mp := (5 * doy + 2) / 153 in
  let d := doy - (153 * mp + 2) / 5 + 1 in
  let m := if mp <? 10 then mp + 3 else mp - 9 in
  (if m <=? 2 then y + 1 else y, m, d).

Definition pad (n : nat) (v : Z) : string :=
  JS.padStart n "0" (JS.String_of_int v).

(** The year of an ISO string: four digits, or a sign and six digits
    outside 0..9999. *)
Definition iso_year (y : Z) : string :=
  if (0 <=? y) && (y <=? 9999) then pad 4 y
  else (if y <? 0 then "-" else "+") +:+ pad 6 (Z.abs y).

(** [d.toISOString()]: always in UTC. *)
Definition toISOString (t : Z) : string :=
  let '(y, m, d) := civil_from_days (t / msPerDay) in
  let ms := t mod msPerDay in
  iso_year y +:+ "-" +:+ pad 2 m +:+ "-" +:+ pad 2 d +:+ "T"
    +:+ pad 2 (ms / 3600000) +:+ ":" +:+ pad 2 (ms / 60000 mod 60) +:+ ":"
    +:+ pad 2 (ms / 1000 mod 60) +:+ "." +:+ pad 3 (ms mod 1000) +:+ "Z".

(** The local time value of a UTC time value, and back. *)
Definition LocalTime (zone : Zone) (t : Z) : Z := t + utc_offset zone t.

Definition UTC (zone : Zone) (tl : Z) : Z := tl - local_offset zone tl.

(** [d.setHours(h, m, s, ms)]: the fields are changed in LOCAL time; the
    result is the new time value of [d]. *)
Definition setHours (zone : Zone) (t : Z) (h m s ms : Z) : Z :=
  let local := LocalTime zone t in
  UTC zone ((local / msPerDay) * msPerDay
            + ((h * 60 + m) * 60 + s) * 1000 + ms).

(** The local calendar day of a time value, as a day number. *)
Definition local_day (zone : Zone) (t : Z) : Z := LocalTime zone t / msPerDay.

End Date.

(** ** The tables of [prisma/schema.prisma]

    Rows are kept under their [id].  Of each model the columns that the
    handlers read or write are kept ([updatedAt], the history [timestamp] and
    the columns of [Product] that no handler reads are left out).  An [Int]
    column holds a 32-bit signed integer and a [Float] column a finite
    double: the store refuses any other value.  A string is a text that a
    column can hold. *)

Inductive OrderStatus : Set := NEW | PREPARING | READY | COMPLETED | CANCELLED.

(** The enum value as the string the JavaScript code compares and prints. *)
Definition status_name (s : OrderStatus) : string :=
  match s with
  | NEW => "NEW"
  | PREPARING => "PREPARING"
  | READY => "READY"
  | COMPLETED => "COMPLETED"
  | CANCELLED => "CANCELLED"
  end.

(** The check of the client library on a value written to an [OrderStatus]
    column: a string that names no member of the enum is refused. *)
Definition parse_status (s : string) : option OrderStatus :=
  if String.eqb s "NEW" then Some NEW
  else if String.eqb s "PREPARING" then Some PREPARING
  else if String.eqb s "READY" then Some READY
  else if String.eqb s "COMPLETED" then Some COMPLETED
  else if String.eqb s "CANCELLED" then Some CANCELLED
  else None.

Inductive PaymentMethod : Set := CASH | CARD | PAYPAL.

(** The range of an [Int] column. *)
Definition int4_min : Z := -2147483648.
Definition int4_max : Z := 2147483647.

Definition int4 (n : Z) : Prop := int4_min ≤ n ∧ n ≤ int4_max.

#[global] Instance int4_dec n : Decision (int4 n).
Proof. unfold int4. apply _. Defined.

Record Product : Set := mkProduct {
  name : string;
  stock : Z;
  isAvailable : bool
}.

(** A line of the cart sent by the client ([interface ProductItem]). *)
Record ProductItem : Set := mkProductItem {
  item_id : string;
  nom : string;
  prix : JS.Number;
  item_quantity : option Z
}.

Record OrderItem : Set := mkOrderItem {
  quantity : Z;
  unitPrice : JS.Number;
  productSnapshot : ProductItem;
  productId : string
}.

Record StatusHistory : Set := mkStatusHistory {
  history_status : OrderStatus;
  note : option string
}.

(** An order with its items, in the order in which the store returns them,
    and its history, oldest row first. *)
Record Order : Set := mkOrder {
  number : string;
  customerName : string;
  paymentMethod : PaymentMethod;
  totalAmount : JS.Number;
  status : OrderStatus;
  isPaid : bool;
  createdAt : Z;
  items : list OrderItem;
  statusHistory : list StatusHistory
}.

(** The payload of [update_order_status]. *)
Record UpdateData : Set := mkUpdateData {
  orderId : string;
  data_status : option string;
  data_isPaid : option bool;
  data_note : option string
}.

(** The payload of [new_order]: an object whose fields may be missing,
    except the cart; [total] is a number when it is there. *)
Record OrderData : Set := mkOrderData {
  data_nom : option string;
  paiement : option string;
  total : option JS.Number;
  panier : list ProductItem;
  instructions : option string
}.

(** The argument of [prisma.order.create] that [new_order] builds. *)
Record OrderCreate : Set := mkOrderCreate {
  create_number : string;
  create_customerName : option string;
  create_paymentMethod : PaymentMethod;
  create_totalAmount : JS.Number;
  create_items : list OrderItem;
  create_statusHistory : StatusHistory;
  create_instructions : option string
}.

(** What a handler reads from its surroundings: [new Date()], the time zone
    of the process, the database clock behind [@default(now())], and the
    order in which the store will return the items that it is given (the
    queries on the items carry no [orderBy]): by increasing rank, and for
    equal ranks as they were given. *)
Record Env : Set := mkEnv {
  today : Z;
  tz : Date.Zone;
  dbNow : Z;
  row_rank : OrderItem → nat
}.

Inductive PrismaFailure : Set :=
  | RecordNotFound
  | InvalidEnumValue (value : string)
  | UniqueConstraint (column : string)
  | UnknownArgument (argument : string)
  | MissingArgument (argument : string)
  | InvalidNumber (argument : string)
  | IntegerOutOfRange (column : string).

Inductive Error : Set :=
  | ProductNotFound (id : string)   (* "Produit non trouvé: <id>" *)
  | OrderNotFound (id : string)     (* "Commande non trouvée: <id>" *)
  | TypeError (property : string)   (* reading [property] of [undefined] *)
  | PersistenceError (f : PrismaFailure).

(** The lines that the two listeners and the stock functions print with
    [console.log] and [console.error]. *)
Inductive LogLine : Set :=
  | NewOrderReceived (orderData : OrderData)
  | OrderCreated (order : string)
  | NewOrderFailed (e : Error)
  | UpdateReceived (data : UpdateData)
  | OrderSaved (order : string)
  | UpdateFailed (e : Error)
  | StockUpdateStarted (order : string)
  | StockDecremented (product : string) (q : Z)
  | StockRestoreStarted (order : string)
  | StockRestored (product : string) (q : Z).

(** The socket events sent by the two handlers. *)
Inductive Emit : Set :=
  | order_confirmation (order : string) (orderNumber : string)
  | new_order_received (order : string)
  | order_error (e : Error)
  | order_updated (order : string)
  | order_status_changed (order : string) (s : OrderStatus) (paid : bool)
  | products_updated (ps : list (string * Product))
  | update_error (e : Error).

Record World : Type := mkWorld {
  products : gmap string Product;
  orders : gmap string Order;
  console : list LogLine;
  emitted : list Emit
}.

Definition set_products (f : gmap string Product → gmap string Product)
    (w : World) : World :=
  mkWorld (f (products w)) (orders w) (console w) (emitted w).

Definition set_orders (f : gmap string Order → gmap string Order)
    (w : World) : World :=
  mkWorld (products w) (f (orders w)) (console w) (emitted w).

(** ** The monad of a handler body

    A computation reads and changes the world and either returns a value or
    throws; the world reached at the throw is kept. *)

Definition M (A : Type) : Type := World → World * (Error + A).

Definition ret {A} (a : A) : M A := λ w, (w, inr a).

Definition bind {A B} (c : M A) (k : A → M B) : M B :=
  λ w, match c w with
       | (w', inr a) => k a w'
       | (w', inl e) => (w', inl e)
       end.

Definition throw {A} (e : Error) : M A := λ w, (w, inl e).

Notation "x <- c ;; k" := (bind c (λ x, k))
  (at level 100, c at next level, right associativity).
Notation "c ;;; k" := (bind c (λ _, k))
  (at level 100, right associativity).

(** [for (const x of xs) { await body(x) }] *)
Fixpoint for_of {A} (xs : list A) (body : A → M unit) : M unit :=
  match xs with
  | [] => ret tt
  | x :: rest => body x ;;; for_of rest body
  end.

(** [await Promise.all(xs.map(async x => body(x)))], the bodies run in the
    order of the list; the first throw rejects the whole. *)
Fixpoint promise_all_map {A B} (xs : list A) (body : A → M B) : M (list B) :=
  match xs with
  | [] => ret []
  | x :: rest =>
      y <- body x ;;
      ys <- promise_all_map rest body ;;
      ret (y :: ys)
  end.

Definition when (b : bool) (c : M unit) : M unit := if b then c else ret tt.

Definition console_log (l : LogLine) : M unit :=
  λ w, (mkWorld (products w) (orders w) (console w ++ [l]) (emitted w), inr tt).

Definition emit (e : Emit) : M unit :=
  λ w, (mkWorld (products w) (orders w) (console w) (emitted w ++ [e]), inr tt).

(** ** The calls on the Prisma client *)

Module prisma.

(** [prisma.product.findFirst({ where: { id } })] *)
Definition product_findFirst (id : string) : M (option Product) :=
  λ w, (w, inr (products w !! id)).

(** [prisma.product.update({ where: { id }, data: { stock: { decrement } |
    { increment }, isAvailable } })]: the stock is changed on the row as
    it is in the database at the call, [isAvailable] is the value given.
    A stock that would leave the range of the column is refused: the call
    throws and the row is left as it was. *)
Definition product_update (id : string) (delta : Z) (available : bool)
  : M unit :=
  λ w, match products w !! id with
       | Some p =>
           if decide (int4 (stock p + delta)) then
             (set_products
                <[id := mkProduct (name p) (stock p + delta) available]> w,
              inr tt)
           else (w, inl (PersistenceError (IntegerOutOfRange "stock")))
       | None => (w, inl (PersistenceError RecordNotFound))
       end.

(** [prisma.product.findMany({ where: { id: { in: ids } } })]: the rows are
    given in the order of the table. *)
Definition product_findMany_in (ids : list string)
  : M (list (string * Product)) :=
  λ w, (w, inr (filter (λ kp, kp.1 ∈ ids) (map_to_list (products w)))).

(** [prisma.order.count({ where: { createdAt: { gte, lte } } })] *)
Definition order_count (gte lte : Z) : M Z :=
  λ w, (w, inr (Z.of_nat
         (size (filter (λ ko : string * Order,
                          gte ≤ createdAt ko.2 ∧ createdAt ko.2 ≤ lte)
                       (orders w))))).

(** [prisma.order.findUnique({ where: { id } })] *)
Definition order_findUnique (id : string) : M (option Order) :=
  λ w, (w, inr (orders w !! id)).

(** The check of the arguments of a create against the schema: [Order] has
    no column [instructions], [customerName] is required, a [Float] is a
    finite number and an [Int] fits 32 bits.  The first failure found is
    reported. *)
Definition create_refusal (data : OrderCreate) : option PrismaFailure :=
  match create_instructions data, create_customerName data with
  | Some _, _ => Some (UnknownArgument "instructions")
  | None, None => Some (MissingArgument "customerName")
  | None, Some _ =>
      if negb (JS.isFinite (create_totalAmount data)) then
        Some (InvalidNumber "totalAmount")
      else if negb (forallb (λ it, JS.isFinite (unitPrice it))
                      (create_items data)) then
        Some (InvalidNumber "unitPrice")
      else if negb (forallb (λ it, bool_decide (int4 (quantity it)))
                      (create_items data)) then
        Some (IntegerOutOfRange "quantity")
      else None
  end.

(** The rows in the order in which the store returns them. *)
Fixpoint insert_row (rank : OrderItem → nat) (it : OrderItem)
    (rows : list OrderItem) : list OrderItem :=
  match rows with
  | [] => [it]
  | row :: rest =>
      if decide (rank it ≤ rank row)%nat then it :: row :: rest
      else row :: insert_row rank it rest
  end.

Definition stored_rows (rank : OrderItem → nat) (its : list OrderItem)
    : list OrderItem :=
  foldr (insert_row rank) [] its.

(** [prisma.order.create] with its nested creates: one statement, which
    the check of the arguments and the [@unique] of [number] can refuse.
    The [id] is a fresh [cuid()], [createdAt] the database clock. *)
Definition order_create (env : Env) (data : OrderCreate)
    : M (string * Order) :=
  λ w, match create_refusal data, create_customerName data with
       | Some f, _ => (w, inl (PersistenceError f))
       | None, None =>
           (* not reached: the check reports the missing name *)
           (w, inl (PersistenceError (MissingArgument "customerName")))
       | None, Some customer =>
           if decide (map_Exists (λ _ o, number o = create_number data)
                        (orders w))
           then (w, inl (PersistenceError (UniqueConstraint "number")))
           else
             let id := fresh (dom (orders w)) in
             let o := mkOrder (create_number data) customer
                        (create_paymentMethod data) (create_totalAmount data)
                        NEW false (dbNow env)
                        (stored_rows (row_rank env) (create_items data))
                        [create_statusHistory data] in
             (set_orders <[id := o]> w, inr (id, o))
       end.

(** The value written to an optional enum column. *)
Definition enum_column (v : option string) (old : OrderStatus)
  : Error + OrderStatus :=
  match v with
  | None => inr old
  | Some s =>
      match parse_status s with
      | Some st => inr st
      | None => inl (PersistenceError (InvalidEnumValue s))
      end
  end.

(** The row of the nested [statusHistory: { create: { status, note } }]. *)
Definition history_row (h : option (string * string))
  : Error + list StatusHistory :=
  match h with
  | None => inr []
  | Some (s, n) =>
      match parse_status s with
      | Some st => inr [mkStatusHistory st (Some n)]
      | None => inl (PersistenceError (InvalidEnumValue s))
      end
  end.

(** [prisma.order.update({ where: { id }, data: { status?, isPaid?,
    statusHistory? } })]: the fields present are written, the history row
    is added, in one statement. *)
Definition order_update (id : string) (new_status : option string)
    (new_isPaid : option bool) (historyCreate : option (string * string))
  : M Order :=
  λ w, match orders w !! id with
       | None => (w, inl (PersistenceError RecordNotFound))
       | Some o =>
           match enum_column new_status (status o),
                 history_row historyCreate with
           | inr st, inr rows =>
               let o' := mkOrder (number o) (customerName o)
                           (paymentMethod o) (totalAmount o) st
                           (default (isPaid o) new_isPaid) (createdAt o)
                           (items o) (statusHistory o ++ rows) in
               (set_orders <[id := o']> w, inr o')
           | inl e, _ => (w, inl e)
           | _, inl e => (w, inl e)
           end
       end.

(** [prisma.orderItem.findMany({ where: { orderId }, include: { product:
    true } })]: every item of the order with the product row as it is at
    the query.  The relation is required: an item without its product
    cannot be stored, and the query fails on one here. *)
Definition orderItem_findMany (order : string)
  : M (list (OrderItem * Product)) :=
  λ w, match orders w !! order with
       | None => (w, inr [])
       | Some o =>
           match mapM (λ it, pair it <$> products w !! productId it)
                      (items o) with
           | Some rows => (w, inr rows)
           | None => (w, inl (PersistenceError RecordNotFound))
           end
       end.

End prisma.

(** ** The server *)

(** [s === lit] for an optional string field. *)
Definition is_string (s : option string) (lit : string) : bool :=
  match s with
  | Some v => String.eqb v lit
  | None => false
  end.

(** [b === lit] for an optional boolean field. *)
Definition is_bool (b : option bool) (lit : bool) : bool :=
  match b with
  | Some v => Bool.eqb v lit
  | None => false
  end.

(** [status === lit] for a stored status. *)
Definition status_is (s : OrderStatus) (lit : string) : bool :=
  String.eqb (status_name s) lit.

Definition generateOrderNumber (env : Env) : M string :=
  let d := today env in
  let dateStr := JS.remove_dashes (JS.slice0 10 (Date.toISOString d)) in
  (* today.setHours(0, 0, 0, 0) changes [today] in place *)
  let d := Date.setHours (tz env) d 0 0 0 0 in
  let todayStart := d in
  let todayEnd := Date.setHours (tz env) d 23 59 59 999 in
  todayOrdersCount <- prisma.order_count todayStart todayEnd ;;
  ret (dateStr +:+ "-"
         +:+ JS.padStart 3 "0" (JS.String_of_int (todayOrdersCount + 1))).

Definition mapPaymentMethod (method : string) : PaymentMethod :=
  let m := JS.toUpperCase method in
  if String.eqb m "CB" then CARD
  else if String.eqb m "CARD" then CARD
  else if String.eqb m "ESPECES" then CASH
  else if String.eqb m "CASH" then CASH
  else if String.eqb m "PAYPAL" then PAYPAL
  else CASH.

Definition updateProductStock (id : string) (order : Order) : M unit :=
  if isPaid order && status_is (status order) "PREPARING" then
    console_log (StockUpdateStarted id) ;;;
    orderItems <- prisma.orderItem_findMany id ;;
    for_of orderItems (λ '(item, product),
      prisma.product_update (productId item) (- quantity item)
        (bool_decide (stock product - quantity item > 0)) ;;;
      console_log (StockDecremented (productId item) (quantity item)))
  else ret tt.

Definition restoreProductStock (id : string) (order : Order)
    (previousStatus : OrderStatus) : M unit :=
  let shouldRestoreStock :=
    (status_is previousStatus "PREPARING"
       && status_is (status order) "CANCELLED")
    || (status_is previousStatus "PREPARING"
          && status_is (status order) "PREPARING"
          && negb (isPaid order)) in
  if shouldRestoreStock then
    console_log (StockRestoreStarted id) ;;;
    orderItems <- prisma.orderItem_findMany id ;;
    for_of orderItems (λ '(item, product),
      prisma.product_update (productId item) (quantity item) true ;;;
      console_log (StockRestored (productId item) (quantity item)))
  else ret tt.

(** The [try] block of the [new_order] listener.  [mapPaymentMethod] is
    called on [orderData.paiement]: on [undefined] its [toUpperCase]
    throws. *)
Definition new_order_try (env : Env) (orderData : OrderData)
    : M (string * Order) :=
  console_log (NewOrderReceived orderData) ;;;
  orderNumber <- generateOrderNumber env ;;
  paymentMethod <- match paiement orderData with
                   | Some method => ret (mapPaymentMethod method)
                   | None => throw (TypeError "toUpperCase")
                   end ;;
  its <- promise_all_map (panier orderData) (λ item,
           product <- prisma.product_findFirst (item_id item) ;;
           match product with
           | None => throw (ProductNotFound (item_id item))
           | Some _ =>
               ret (mkOrderItem (JS.or_one (item_quantity item)) (prix item)
                      item (item_id item))
           end) ;;
  let orderCreate :=
    mkOrderCreate orderNumber (data_nom orderData) paymentMethod
      (JS.parseFloat (total orderData)) its
      (mkStatusHistory NEW (Some "Commande créée")) None in
  let orderCreate :=
    if JS.truthy (instructions orderData) then
      mkOrderCreate (create_number orderCreate)
        (create_customerName orderCreate) (create_paymentMethod orderCreate)
        (create_totalAmount orderCreate) (create_items orderCreate)
        (create_statusHistory orderCreate) (instructions orderData)
    else orderCreate in
  created <- prisma.order_create env orderCreate ;;
  console_log (OrderCreated created.1) ;;;
  emit (order_confirmation created.1 (number created.2)) ;;;
  emit (new_order_received created.1) ;;;
  ret created.

(** The listener: the [catch] prints the error and turns it into
    [order_error]. *)
Definition new_order (env : Env) (orderData : OrderData) (w : World) : World :=
  match new_order_try env orderData w with
  | (w', inr _) => w'
  | (w', inl e) =>
      (bind (console_log (NewOrderFailed e)) (λ _, emit (order_error e)) w').1
  end.

(** The [try] block of the [update_order_status] listener. *)
Definition update_order_status_try (data : UpdateData) : M unit :=
  console_log (UpdateReceived data) ;;;
  currentOrder <- prisma.order_findUnique (orderId data) ;;
  match currentOrder with
  | None => throw (OrderNotFound (orderId data))
  | Some currentOrder =>
      let previousStatus := status currentOrder in
      let previousIsPaid := isPaid currentOrder in
      let historyCreate :=
        match data_status data with
        | Some (String c rest as s) =>
            Some (s, JS.or_string (data_note data)
                       ("Statut modifié de " +:+ status_name previousStatus
                          +:+ " à " +:+ s))
        | _ => None
        end in
      updatedOrder <- prisma.order_update (orderId data) (data_status data)
                        (data_isPaid data) historyCreate ;;
      when ((is_string (data_status data) "PREPARING" && isPaid updatedOrder)
            || (status_is previousStatus "PREPARING"
                  && is_bool (data_isPaid data) true))
        (updateProductStock (orderId data) updatedOrder) ;;;
      when ((status_is previousStatus "PREPARING"
               && is_string (data_status data) "CANCELLED")
            || (status_is previousStatus "PREPARING" && previousIsPaid
                  && is_bool (data_isPaid data) false))
        (restoreProductStock (orderId data) updatedOrder previousStatus) ;;;
      console_log (OrderSaved (orderId data)) ;;;
      emit (order_updated (orderId data)) ;;;
      emit (order_status_changed (orderId data) (status updatedOrder)
              (isPaid updatedOrder)) ;;;
      when ((is_string (data_status data) "PREPARING" && isPaid updatedOrder)
            || (status_is previousStatus "PREPARING"
                  && is_bool (data_isPaid data) true)
            || (status_is previousStatus "PREPARING"
                  && is_string (data_status data) "CANCELLED")
            || (status_is previousStatus "PREPARING" && previousIsPaid
                  && is_bool (data_isPaid data) false))
        (updatedProducts <- prisma.product_findMany_in
                              (map productId (items updatedOrder)) ;;
         emit (products_updated updatedProducts))
  end.

(** The listener: the [catch] prints the error and turns it into
    [update_error]. *)
Definition update_order_status (data : UpdateData) (w : World) : World :=
  match update_order_status_try data w with
  | (w', inr _) => w'
  | (w', inl e) =>
      (bind (console_log (UpdateFailed e)) (λ _, emit (update_error e)) w').1
  end.

(** The requests that reach the two listeners, and the server handling a
    sequence of them, one after the other. *)
Inductive Request : Set :=
  | NewOrder (env : Env) (orderData : OrderData)
  | UpdateOrderStatus (data : UpdateData).

Definition handle (r : Request) (w : World) : World :=
  match r with
  | NewOrder env orderData => new_order env orderData w
  | UpdateOrderStatus data => update_order_status data w
  end.

Definition run (rs : list Request) (w : World) : World :=
  foldl (λ acc r, handle r acc) w rs.

(** ** Quantities used in the statements *)

(** The total that the items of an order ask of one product, and the total
    of the absolute values of their quantities. *)
Fixpoint ordered_qty (its : list OrderItem) (pid : string) : Z :=
  match its with
  | [] => 0
  | it :: rest =>
      (if decide (productId it = pid) then quantity it else 0)
      + ordered_qty rest pid
  end.

Fixpoint ordered_abs (its : list OrderItem) (pid : string) : Z :=
  match its with
  | [] => 0
  | it :: rest =>
      (if decide (productId it = pid) then Z.abs (quantity it) else 0)
      + ordered_abs rest pid
  end.

(** Every stock of the table stays in the range of its column when the
    quantities of the items are taken from it or added to it, in whatever
    order. *)
Definition stock_in_range (its : list OrderItem) (m : gmap string Product)
    : Prop :=
  ∀ pid p, m !! pid = Some p →
    int4_min ≤ stock p - ordered_abs its pid
    ∧ stock p + ordered_abs its pid ≤ int4_max.

(** No update of a loop that adds [sign] times the quantities of the items,
    one after the other, leaves the range of the stock column. *)
Definition no_overflow (sign : Z) (its : list OrderItem)
    (m : gmap string Product) : Prop :=
  ∀ k pid p, m !! pid = Some p →
    int4 (stock p + sign * ordered_qty (take k its) pid).

(** The foreign key of [OrderItem.productId]: every item of every order
    references a product of the table. *)
Definition items_resolve (w : World) : Prop :=
  ∀ id o it, orders w !! id = Some o → it ∈ items o →
    is_Some (products w !! productId it).

(** The lines that record a change of stock. *)
Definition is_decrement (l : LogLine) : Prop :=
  match l with StockDecremented _ _ => True | _ => False end.

Definition is_restore (l : LogLine) : Prop :=
  match l with StockRestored _ _ => True | _ => False end.

(** The order item that [new_order] builds from a line of the cart. *)
Definition to_item (item : ProductItem) : OrderItem :=
  mkOrderItem (JS.or_one (item_quantity item)) (prix item) item (item_id item).

(** A payload that the store can take: the name and the payment are there,
    the total is read as a finite number, the prices are finite numbers,
    there are no instructions and every quantity fits the column. *)
Definition well_formed (d : OrderData) : Prop :=
  is_Some (data_nom d) ∧ is_Some (paiement d)
  ∧ JS.isFinite (JS.parseFloat (total d)) = true
  ∧ JS.truthy (instructions d) = false
  ∧ ∀ line, line ∈ panier d →
      JS.isFinite (prix line) = true ∧ int4 (JS.or_one (item_quantity line)).

(** The order that [new_order] stores for a payload under the number
    [num]. *)
Definition created_order (env : Env) (d : OrderData) (num : string) : Order :=
  mkOrder num (default EmptyString (data_nom d))
    (mapPaymentMethod (default EmptyString (paiement d)))
    (JS.parseFloat (total d)) NEW false (dbNow env)
    (prisma.stored_rows (row_rank env) (map to_item (panier d)))
    [mkStatusHistory NEW (Some "Commande créée")].

(** ** Auxiliary definitions for the proofs *)

(** One row of a stock loop: the update of the product, then its line. *)
Definition stock_step (delta : OrderItem * Product → Z)
    (avail : OrderItem * Product → bool) (line : OrderItem * Product → LogLine)
    (row : OrderItem * Product) : M unit :=
  prisma.product_update (productId row.1) (delta row) (avail row) ;;;
  console_log (line row).

Fixpoint sum_delta (delta : OrderItem * Product → Z)
    (rows : list (OrderItem * Product)) (pid : string) : Z :=
  match rows with
  | [] => 0
  | row :: rest =>
      (if decide (productId row.1 = pid) then delta row else 0)
      + sum_delta delta rest pid
  end.

(** The last row of a stock loop that updates the product [pid], and the
    quantity of the last item of an order that references it. *)
Fixpoint last_row (rows : list (OrderItem * Product)) (pid : string)
    : option (OrderItem * Product) :=
  match rows with
  | [] => None
  | row :: rest =>
      match last_row rest pid with
      | Some r => Some r
      | None => if decide (productId row.1 = pid) then Some row else None
      end
  end.

Fixpoint last_qty (its : list OrderItem) (pid : string) : option Z :=
  match its with
  | [] => None
  | it :: rest =>
      match last_qty rest pid with
      | Some q => Some q
      | None => if decide (productId it = pid) then Some (quantity it) else None
      end
  end.

(** The common shape of the two stock functions once their guard holds. *)
Definition adjust (id : string) (start : LogLine)
    (delta : OrderItem * Product → Z) (avail : OrderItem * Product → bool)
    (line : OrderItem * Product → LogLine) : M unit :=
  console_log start ;;;
  orderItems <- prisma.orderItem_findMany id ;;
  for_of orderItems (stock_step delta avail line).

(** The guard of [updateProductStock] and of [restoreProductStock]. *)
Definition paid_and_preparing (order : Order) : bool :=
  isPaid order && status_is (status order) "PREPARING".

Definition shouldRestoreStock (order : Order) (previousStatus : OrderStatus)
    : bool :=
  (status_is previousStatus "PREPARING"
     && status_is (status order) "CANCELLED")
  || (status_is previousStatus "PREPARING"
        && status_is (status order) "PREPARING"
        && negb (isPaid order)).

(** The two conditions of the listener around the stock functions. *)
Definition decrement_trigger (data : UpdateData) (previousStatus : OrderStatus)
    (updatedOrder : Order) : bool :=
  (is_string (data_status data) "PREPARING" && isPaid updatedOrder)
  || (status_is previousStatus "PREPARING" && is_bool (data_isPaid data) true).

Definition restore_trigger (data : UpdateData) (previousStatus : OrderStatus)
    (previousIsPaid : bool) : bool :=
  (status_is previousStatus "PREPARING"
     && is_string (data_status data) "CANCELLED")
  || (status_is previousStatus "PREPARING" && previousIsPaid
        && is_bool (data_isPaid data) false).

(** What the first [k] rows of a stock loop make of the product table [m]. *)
Definition rows_applied (delta : OrderItem * Product → Z)
    (avail : OrderItem * Product → bool) (done : list (OrderItem * Product))
    (m m' : gmap string Product) : Prop :=
  (∀ pid, m !! pid = None → m' !! pid = None)
  ∧ ∀ pid p, m !! pid = Some p →
      ∃ p', m' !! pid = Some p'
          ∧ name p' = name p
          ∧ stock p' = stock p + sum_delta delta done pid
          ∧ (pid ∉ map (λ r, productId r.1) done → p' = p)
          ∧ isAvailable p'
            = match last_row done pid with
              | Some r => avail r
              | None => isAvailable p
              end.

(** How a stock loop over [rows] ends after [k] rows: with all of them, or
    on the row whose update leaves the range of the stock column. *)
Definition loop_end (delta : OrderItem * Product → Z)
    (rows : list (OrderItem * Product)) (k : nat)
    (m : gmap string Product) (r : Error + unit) : Prop :=
  (r = inr tt ∧ k = length rows)
  ∨ (r = inl (PersistenceError (IntegerOutOfRange "stock"))
     ∧ ∃ row p, rows !! k = Some row ∧ m !! productId row.1 = Some p
         ∧ ¬ int4 (stock p + sum_delta delta (take (S k) rows)
                               (productId row.1))).

(** What a run of [adjust] on the items [its] makes of the product table
    [m], and the lines that it prints: either the items could not be read
    with their products and no stock has changed, or the first [k] rows have
    been applied. *)
Definition adjusted (its : list OrderItem) (start : LogLine)
    (delta : OrderItem * Product → Z) (avail : OrderItem * Product → bool)
    (line : OrderItem * Product → LogLine)
    (m m' : gmap string Product) (lines : list LogLine) (r : Error + unit)
    : Prop :=
  (m' = m ∧ lines = [start]
   ∧ r = inl (PersistenceError RecordNotFound)
   ∧ ¬ (∀ it, it ∈ its → is_Some (m !! productId it)))
  ∨ (∃ rows k, map fst rows = its
       ∧ (∀ row, row ∈ rows → m !! productId row.1 = Some row.2)
       ∧ lines = start :: map line (take k rows)
       ∧ loop_end delta rows k m r
       ∧ rows_applied delta avail (take k rows) m m').

(** The arguments with which the two stock functions run the loop. *)
Definition dec_delta (row : OrderItem * Product) : Z := - quantity row.1.
Definition dec_avail (row : OrderItem * Product) : bool :=
  bool_decide (stock row.2 - quantity row.1 > 0).
Definition dec_line (row : OrderItem * Product) : LogLine :=
  StockDecremented (productId row.1) (quantity row.1).
Definition res_delta (row : OrderItem * Product) : Z := quantity row.1.
Definition res_avail (row : OrderItem * Product) : bool := true.
Definition res_line (row : OrderItem * Product) : LogLine :=
  StockRestored (productId row.1) (quantity row.1).

(** The history rows that [update_order_status] adds to an order in status
    [previousStatus] when the new status [st] is accepted. *)
Definition appended_history (data : UpdateData) (previousStatus st : OrderStatus)
    : list StatusHistory :=
  match data_status data with
  | Some (String c rest as s) =>
      [mkStatusHistory st
         (Some (JS.or_string (data_note data)
                  ("Statut modifié de " +:+ status_name previousStatus
                     +:+ " à " +:+ s)))]
  | _ => []
  end.

(** The order row that [update_order_status] writes. *)
Definition updated_order (data : UpdateData) (o : Order) (st : OrderStatus)
    : Order :=
  mkOrder (number o) (customerName o) (paymentMethod o) (totalAmount o) st
    (default (isPaid o) (data_isPaid data)) (createdAt o) (items o)
    (statusHistory o ++ appended_history data (status o) st).

(** The body that [new_order] runs on each line of the cart. *)
Definition resolve_line (item : ProductItem) : M OrderItem :=
  product <- prisma.product_findFirst (item_id item) ;;
  match product with
  | None => throw (ProductNotFound (item_id item))
  | Some _ =>
      ret (mkOrderItem (JS.or_one (item_quantity item)) (prix item) item
             (item_id item))
  end.

(** The argument of the create for a payload whose lines have resolved. *)
Definition order_create_data (d : OrderData) (num : string)
    (method : PaymentMethod) : OrderCreate :=
  mkOrderCreate num (data_nom d) method (JS.parseFloat (total d))
    (map to_item (panier d)) (mkStatusHistory NEW (Some "Commande créée"))
    (if JS.truthy (instructions d) then instructions d else None).

(** The condition under which the listener sends [products_updated]. *)
Definition products_updated_trigger (data : UpdateData)
    (previousStatus : OrderStatus) (previousIsPaid : bool)
    (updatedOrder : Order) : bool :=
  (is_string (data_status data) "PREPARING" && isPaid updatedOrder)
  || (status_is previousStatus "PREPARING" && is_bool (data_isPaid data) true)
  || (status_is previousStatus "PREPARING"
        && is_string (data_status data) "CANCELLED")
  || (status_is previousStatus "PREPARING" && previousIsPaid
        && is_bool (data_isPaid data) false).

(** The line and the events that end a successful [update_order_status]. *)
Definition broadcast (id : string) (updatedOrder : Order) (stock_event : bool)
    (w : World) : World :=
  mkWorld (products w) (orders w) (console w ++ [OrderSaved id])
    (emitted w
       ++ [order_updated id;
           order_status_changed id (status updatedOrder) (isPaid updatedOrder)]
       ++ (if stock_event
           then [products_updated
                   (filter (λ kp, kp.1 ∈ map productId (items updatedOrder))
                      (map_to_list (products w)))]
           else [])).

(** The line and the event of the [catch] of [update_order_status]. *)
Definition update_failed (e : Error) (w : World) : World :=
  mkWorld (products w) (orders w) (console w ++ [UpdateFailed e])
    (emitted w ++ [update_error e]).

(** The world and the result of the [try] block of [update_order_status]
    on an order that the store has rewritten as [o'], when the stock
    functions have made [m'] of the product table, printed [lines] and
    returned [r]. *)
Definition update_result (data : UpdateData) (o' : Order) (stock_event : bool)
    (w : World) (m' : gmap string Product) (lines : list LogLine)
    (r : Error + unit) : World * (Error + unit) :=
  let w2 := mkWorld m' (<[orderId data := o']> (orders w))
              (console w ++ UpdateReceived data :: lines) (emitted w) in
  match r with
  | inr _ => (broadcast (orderId data) o' stock_event w2, inr tt)
  | inl e => (w2, inl e)
  end.

(** The number that [generateOrderNumber] gives over the orders [m]. *)
Definition next_number (env : Env) (m : gmap string Order) : string :=
  JS.remove_dashes (JS.slice0 10 (Date.toISOString (today env))) +:+ "-"
  +:+ JS.padStart 3 "0"
        (JS.String_of_int
           (Z.of_nat
              (size (filter
                 (λ ko : string * Order,
                    Date.setHours (tz env) (today env) 0 0 0 0
                    ≤ createdAt ko.2
                    ∧ createdAt ko.2
                      ≤ Date.setHours (tz env)
                          (Date.setHours (tz env) (today env) 0 0 0 0)
                          23 59 59 999)
                 m)) + 1)).

(** The world after a [new_order] that is stored under [id] as [o]. *)
Definition new_order_stored (d : OrderData) (id : string) (o : Order)
    (w : World) : World :=
  mkWorld (products w) (<[id := o]> (orders w))
    (console w ++ [NewOrderReceived d; OrderCreated id])
    (emitted w ++ [order_confirmation id (number o); new_order_received id]).

(** The world after a [new_order] that fails with [e]. *)
Definition new_order_refused (d : OrderData) (e : Error) (w : World)
    : World :=
  mkWorld (products w) (orders w)
    (console w ++ [NewOrderReceived d; NewOrderFailed e])
    (emitted w ++ [order_error e]).

(** The status that a request supplies for the order [id], when the store
    accepts it. *)
Definition supplied_status (id : string) (r : Request) : option OrderStatus :=
  match r with
  | UpdateOrderStatus data =>
      if String.eqb (orderId data) id then data_status data ≫= parse_status
      else None
  | NewOrder _ _ => None
  end.

(** The [isPaid] that a request supplies for the order [id], when the store
    accepts the request. *)
Definition supplied_isPaid (id : string) (r : Request) : option bool :=
  match r with
  | UpdateOrderStatus data =>
      if String.eqb (orderId data) id then
        match data_status data with
        | Some s =>
            match parse_status s with
            | Some _ => data_isPaid data
            | None => None
            end
        | None => data_isPaid data
        end
      else None
  | NewOrder _ _ => None
  end.

(** The numbers of the stored orders are pairwise distinct. *)
Definition numbers_unique (w : World) : Prop :=
  ∀ id1 id2 o1 o2,
    orders w !! id1 = Some o1 → orders w !! id2 = Some o2 →
    number o1 = number o2 → id1 = id2.

(** The status of every order is the status of its last history row. *)
Definition history_tracks_status (w : World) : Prop :=
  ∀ id o, orders w !! id = Some o →
    last (map history_status (statusHistory o)) = Some (status o).

(** Two characters that are equal or the two cases of one letter, and two
    strings that are the same up to the case of their letters. *)
Definition letters : list (ascii * ascii) :=
  [("a", "A"); ("b", "B"); ("c", "C"); ("d", "D"); ("e", "E"); ("f", "F");
   ("g", "G"); ("h", "H"); ("i", "I"); ("j", "J"); ("k", "K"); ("l", "L");
   ("m", "M"); ("n", "N"); ("o", "O"); ("p", "P"); ("q", "Q"); ("r", "R");
   ("s", "S"); ("t", "T"); ("u", "U"); ("v", "V"); ("w", "W"); ("x", "X");
   ("y", "Y"); ("z", "Z")]%char.

Definition same_letter (c c' : ascii) : Prop :=
  c = c' ∨ (c, c') ∈ letters ∨ (c', c) ∈ letters.

Fixpoint same_spelling (s s' : string) : Prop :=
  match s, s' with
  | EmptyString, EmptyString => True
  | String c rest, String c' rest' => same_letter c c' ∧ same_spelling rest rest'
  | _, _ => False
  end.

(** ** Sample data *)

Module Sample.

Definition catalogue : World :=
  mkWorld {[ "A" := mkProduct "Cafe" 10 true;
             "B" := mkProduct "Tarte" 1 true ]} ∅ [] [].

(** 2025-03-07T23:30:00.000Z on a server one hour east of UTC: the local
    date is already 2025-03-08.  The store returns the items as they were
    given. *)
Definition late_evening : Env :=
  mkEnv 1741390200000 (Date.fixed 60) 1741390200000 (λ _, 0%nat).

(** 2025-03-07T10:00:00.000Z on the same server. *)
Definition morning : Env :=
  mkEnv 1741341600000 (Date.fixed 60) 1741341600000 (λ _, 0%nat).

(** The same moment, with a store that returns the items by decreasing
    quantity. *)
Definition morning_largest_first : Env :=
  mkEnv 1741341600000 (Date.fixed 60) 1741341600000
    (λ it, Z.to_nat (100 - quantity it)).

(** Europe/Paris around the end of summer time, 2025-10-26T01:00:00.000Z:
    two hours east of UTC before, one hour after. *)
Definition paris : Date.Zone := Date.changing 120 60 1761440400000.

Definition cart : OrderData :=
  mkOrderData (Some "Zoe") (Some "cb") (Some 11.5%float)
    [mkProductItem "A" "Cafe" 2.5%float (Some 3);
     mkProductItem "B" "Tarte" 4%float None]
    None.

(** The order of [cart] as the store holds it, in a given status and with a
    given history. *)
Definition order_of_cart (st : OrderStatus) (paid : bool)
    (history : list StatusHistory) : Order :=
  mkOrder "20250307-001" "Zoe" CARD 11.5%float st paid 1741341600000
    (map to_item (panier cart)) history.

Definition created : list StatusHistory :=
  [mkStatusHistory NEW (Some "Commande créée")].

Definition created_prepared : list StatusHistory :=
  [mkStatusHistory NEW (Some "Commande créée");
   mkStatusHistory PREPARING (Some "Statut modifié de NEW à PREPARING")].

(** The first order of [catalogue] gets the id ["0"]. *)
Definition to_preparing_paid : UpdateData :=
  mkUpdateData "0" (Some "PREPARING") (Some true) None.

(** One order, submitted in the morning. *)
Definition submitted : World := run [NewOrder morning cart] catalogue.

(** The order in preparation, not paid: no stock taken. *)
Definition preparing_unpaid : World :=
  run [UpdateOrderStatus (mkUpdateData "0" (Some "PREPARING") None None)]
      submitted.

(** The order in preparation and paid: stock taken once. *)
Definition preparing_paid : World :=
  run [UpdateOrderStatus to_preparing_paid] submitted.

(** Two orders, both submitted in the morning of 2025-03-07. *)
Definition two_orders : World :=
  run [NewOrder morning cart; NewOrder morning cart] catalogue.

(** The order served. *)
Definition completed : World :=
  run [UpdateOrderStatus (mkUpdateData "0" (Some "READY") None None);
       UpdateOrderStatus (mkUpdateData "0" (Some "COMPLETED") None None)]
      preparing_paid.

End Sample.

(** ** The connected clients

    [connectedClients] holds two sets of socket ids; the rooms of socket.io
    hold the sockets that have joined them.  The [clients_count] events are
    kept with the sockets of the room they are sent to; the lines that these
    listeners print are not kept. *)

Inductive ClientType : Set := customer | kitchen.

Record Hub : Type := mkHub {
  connected_customer : gset string;
  connected_kitchen : gset string;
  room_customer : gset string;
  room_kitchen : gset string;
  clients_count : list (gset string * (nat * nat))
}.

Definition hub0 : Hub := mkHub ∅ ∅ ∅ ∅ [].

(** [io.to("kitchen").emit("clients_count", { customers, kitchen })] *)
Definition emit_clients_count (h : Hub) : Hub :=
  mkHub (connected_customer h) (connected_kitchen h)
    (room_customer h) (room_kitchen h)
    (clients_count h
       ++ [(room_kitchen h,
            (size (connected_customer h), size (connected_kitchen h)))]).

(** The [register] listener of the socket [socket]: [socket.join], then
    [Set.add], then the count for the kitchen room. *)
Definition register (socket : string) (clientType : ClientType) (h : Hub)
    : Hub :=
  emit_clients_count
    match clientType with
    | customer =>
        mkHub ({[socket]} ∪ connected_customer h) (connected_kitchen h)
          ({[socket]} ∪ room_customer h) (room_kitchen h) (clients_count h)
    | kitchen =>
        mkHub (connected_customer h) ({[socket]} ∪ connected_kitchen h)
          (room_customer h) ({[socket]} ∪ room_kitchen h) (clients_count h)
    end.

(** The [disconnect] listener of the socket [socket]: the socket has left
    its rooms when the listener runs; it is deleted from both sets, then the
    count goes to the kitchen room. *)
Definition disconnect (socket : string) (h : Hub) : Hub :=
  emit_clients_count
    (mkHub (connected_customer h ∖ {[socket]})
       (connected_kitchen h ∖ {[socket]})
       (room_customer h ∖ {[socket]}) (room_kitchen h ∖ {[socket]})
       (clients_count h)).

Inductive SocketEvent : Set :=
  | Register (socket : string) (clientType : ClientType)
  | Disconnect (socket : string).

Definition hub_handle (e : SocketEvent) (h : Hub) : Hub :=
  match e with
  | Register socket clientType => register socket clientType h
  | Disconnect socket => disconnect socket h
  end.

Definition hub_run (es : list SocketEvent) (h : Hub) : Hub :=
  foldl (λ acc e, hub_handle e acc) h es.

(** [connectedClients[clientType]] *)
Definition connected (clientType : ClientType) (h : Hub) : gset string :=
  match clientType with
  | customer => connected_customer h
  | kitchen => connected_kitchen h
  end.

(** The sets of [connectedClients] and the rooms hold the same sockets, and
    every count already sent went to as many sockets as its kitchen count. *)
Definition hub_consistent (h : Hub) : Prop :=
  connected_customer h = room_customer h
  ∧ connected_kitchen h = room_kitchen h
  ∧ Forall (λ ev : gset string * (nat * nat), size ev.1 = ev.2.2)
      (clients_count h).

(** * Properties *)

(** ** Dates and order numbers on known values *)

Example toISOString_epoch : Date.toISOString 0 = "1970-01-01T00:00:00.000Z".
Proof. reflexivity. Qed.

Example toISOString_before_epoch :
  Date.toISOString (-1) = "1969-12-31T23:59:59.999Z".
Proof. reflexivity. Qed.

Example toISOString_leap_day :
  Date.toISOString 951782400000 = "2000-02-29T00:00:00.000Z".
Proof. reflexivity. Qed.

Example toISOString_year_10000 :
  Date.toISOString 253402300800000 = "+010000-01-01T00:00:00.000Z".
Proof. reflexivity. Qed.

Example setHours_local_midnight :
  Date.toISOString (Date.setHours (Date.fixed 60) 1741390200000 0 0 0 0)
  = "2025-03-07T23:00:00.000Z"
  ∧ Date.toISOString
      (Date.setHours (Date.fixed 60) 1741390200000 23 59 59 999)
    = "2025-03-08T22:59:59.999Z".
Proof. split; reflexivity. Qed.

(** On the day on which summer time ends, local midnight and the last
    millisecond of the local day are twenty-five hours apart. *)
Example setHours_day_of_25_hours :
  let t := 1761472800000 in
  let todayStart := Date.setHours Sample.paris t 0 0 0 0 in
  let todayEnd := Date.setHours Sample.paris todayStart 23 59 59 999 in
  Date.toISOString t = "2025-10-26T10:00:00.000Z"
  ∧ Date.toISOString todayStart = "2025-10-25T22:00:00.000Z"
  ∧ Date.toISOString todayEnd = "2025-10-26T22:59:59.999Z"
  ∧ todayEnd - todayStart = 25 * 3600000 - 1.
Proof. repeat split; reflexivity. Qed.

Example padStart_examples :
  JS.padStart 3 "0" "7" = "007" ∧ JS.padStart 3 "0" "42" = "042"
  ∧ JS.padStart 3 "0" "1000" = "1000" ∧ JS.padStart 5 "ab" "x" = "ababx".
Proof. repeat split; reflexivity. Qed.

(** The generator reads the orders and changes nothing. *)
Lemma generateOrderNumber_eq env w :
  generateOrderNumber env w = (w, inr (next_number env (orders w))).
Proof. reflexivity. Qed.

Lemma generateOrderNumber_runs env w :
  ∃ num, generateOrderNumber env w = (w, inr num).
Proof. eexists. reflexivity. Qed.

(** In a zone without change of offset, the window of the generator is the
    local day of the moment. *)
Lemma in_window_iff minutes t u :
  Date.setHours (Date.fixed minutes) t 0 0 0 0 ≤ u
  ∧ u ≤ Date.setHours (Date.fixed minutes)
          (Date.setHours (Date.fixed minutes) t 0 0 0 0) 23 59 59 999
  ↔ Date.local_day (Date.fixed minutes) u
    = Date.local_day (Date.fixed minutes) t.
Proof.
  unfold Date.setHours, Date.local_day, Date.LocalTime, Date.UTC,
    Date.msPerDay. simpl.
  set (q := (t + minutes * 60000) `div` 86400000).
  replace (q * 86400000 + ((0 * 60 + 0) * 60 + 0) * 1000 + 0
           - minutes * 60000 + minutes * 60000)
    with (q * 86400000) by lia.
  rewrite Z.div_mul by done.
  pose proof (Z.mod_pos_bound (u + minutes * 60000) 86400000 eq_refl) as Hru.
  pose proof (Z.div_mod (u + minutes * 60000) 86400000 ltac:(done)) as Hqu.
  split.
  - intros Hu. symmetry.
    apply (Z.div_unique _ _ q (u + minutes * 60000 - q * 86400000)); lia.
  - intros Hu. rewrite Hu in Hqu. lia.
Qed.

(** ** The monad and the loops *)

Lemma for_of_ext {A} (xs : list A) (f g : A → M unit) (w : World) :
  (∀ x w', f x w' = g x w') → for_of xs f w = for_of xs g w.
Proof.
  intros Hfg. revert w.
  induction xs as [|x xs IH]; intros w; simpl; [reflexivity|].
  unfold bind. rewrite Hfg. destruct (g x w) as [w1 [e|[]]]; auto.
Qed.

Lemma last_row_spec rows pid r :
  last_row rows pid = Some r → r ∈ rows ∧ productId r.1 = pid.
Proof.
  induction rows as [|row rows IH]; simpl; [done|].
  destruct (last_row rows pid) as [r'|].
  - intros [= <-]. destruct IH as [Hin Hpid]; [done|]. split; [by right|done].
  - case_decide; [|done]. intros [= <-]. split; [left|done].
Qed.

Lemma last_row_referenced rows pid :
  pid ∈ map (λ r : OrderItem * Product, productId r.1) rows →
  is_Some (last_row rows pid).
Proof.
  induction rows as [|row rows IH]; simpl; intros Hin.
  - by apply elem_of_nil in Hin.
  - destruct (last_row rows pid) as [r|] eqn:Hr; [by eexists|].
    apply elem_of_cons in Hin as [->|Hin].
    + rewrite decide_True by done. by eexists.
    + destruct (IH Hin) as [? ?]. congruence.
Qed.

Lemma last_row_qty rows pid :
  (λ r : OrderItem * Product, quantity r.1) <$> last_row rows pid
  = last_qty (map fst rows) pid.
Proof.
  induction rows as [|row rows IH]; simpl; [done|].
  rewrite <- IH. destruct (last_row rows pid); simpl; [done|].
  by case_decide.
Qed.

Lemma rows_applied_nil delta avail m : rows_applied delta avail [] m m.
Proof.
  split; [done|]. intros pid p Hp. exists p. simpl.
  rewrite Z.add_0_r. by repeat split.
Qed.

(** A stock loop applies its rows one after the other and stops at the
    first update that the store refuses. *)
Lemma stock_loop_outcome delta avail line rows : ∀ w,
  (∀ row, row ∈ rows → is_Some (products w !! productId row.1)) →
  ∃ k m' r,
    for_of rows (stock_step delta avail line) w
    = (mkWorld m' (orders w) (console w ++ map line (take k rows))
         (emitted w), r)
    ∧ loop_end delta rows k (products w) r
    ∧ rows_applied delta avail (take k rows) (products w) m'.
Proof.
  induction rows as [|row rows IH]; intros w Hdom.
  - exists 0%nat, (products w), (inr tt). simpl. split; [|split].
    + unfold ret. rewrite app_nil_r. by destruct w.
    + by left.
    + apply rows_applied_nil.
  - destruct (Hdom row) as [p0 Hp0]; [left|].
    cbn [for_of]. unfold bind at 1, stock_step at 1, bind at 1.
    unfold prisma.product_update at 1. rewrite Hp0.
    destruct (decide (int4 (stock p0 + delta row))) as [Hin|Hout].
    2: { exists 0%nat, (products w),
           (inl (PersistenceError (IntegerOutOfRange "stock"))).
         simpl. split; [|split].
         - rewrite app_nil_r. by destruct w.
         - right. split; [done|]. exists row, p0. split; [done|].
           split; [done|]. simpl. rewrite decide_True by done.
           by rewrite Z.add_0_r.
         - apply rows_applied_nil. }
    simpl.
    set (p1 := mkProduct (name p0) (stock p0 + delta row) (avail row)).
    set (w1 := mkWorld _ _ _ _).
    destruct (IH w1) as (k & m' & r & Hrun & Hend & Hnone & Hm').
    { intros r Hr. subst w1; simpl.
      destruct (decide (productId row.1 = productId r.1)) as [->|Hne].
      - rewrite lookup_insert_eq. eauto.
      - rewrite lookup_insert_ne by done. apply Hdom. by right. }
    exists (S k), m', r. split; [|split].
    + rewrite Hrun. subst w1; simpl. by rewrite <- app_assoc.
    + destruct Hend as [[-> ->]|(-> & row' & p' & Hk & Hp' & Hbad)].
      * by left.
      * right. split; [done|]. subst w1; simpl in Hp'.
        destruct (decide (productId row.1 = productId row'.1)) as [Heq|Hne].
        -- rewrite Heq, lookup_insert_eq in Hp'. injection Hp' as <-.
           exists row', p0. split; [done|]. split; [by rewrite <- Heq|].
           cbn [take sum_delta]. rewrite decide_True by done.
           subst p1; simpl in Hbad. by rewrite Z.add_assoc.
        -- rewrite lookup_insert_ne in Hp' by done.
           exists row', p'. split; [done|]. split; [done|].
           cbn [take sum_delta]. rewrite decide_False by done.
           by rewrite Z.add_0_l.
    + cbn [take]. split.
      * intros pid Hpid. apply Hnone. subst w1; simpl.
        rewrite lookup_insert_ne; [done|]. intros <-. congruence.
      * intros pid p Hp. subst w1; simpl in Hm'.
        destruct (decide (productId row.1 = pid)) as [Heq|Hne].
        -- subst pid. rewrite Hp0 in Hp. injection Hp as <-.
           destruct (Hm' (productId row.1) p1)
             as (p' & Hl & Hn & Hs & Hun & Hav).
           { apply lookup_insert_eq. }
           exists p'. cbn [sum_delta last_row map].
           rewrite !decide_True by done.
           split; [done|]. split; [done|]. split; [|split].
           ++ subst p1; simpl in Hs. lia.
           ++ intros Hnot. exfalso. apply Hnot. left.
           ++ rewrite Hav. by destruct (last_row (take k rows) _).
        -- destruct (Hm' pid p) as (p' & Hl & Hn & Hs & Hun & Hav).
           { rewrite lookup_insert_ne by done. done. }
           exists p'. cbn [sum_delta last_row map].
           rewrite !decide_False by done.
           split; [done|]. split; [done|]. split; [|split].
           ++ lia.
           ++ intros Hnot. apply Hun. intros Hin'. apply Hnot. by right.
           ++ rewrite Hav. by destruct (last_row (take k rows) _).
Qed.

(** ** The stock functions *)

Lemma findMany_rows id o w :
  orders w !! id = Some o →
  (∃ rows, prisma.orderItem_findMany id w = (w, inr rows)
         ∧ map fst rows = items o
         ∧ ∀ row, row ∈ rows → products w !! productId row.1 = Some row.2)
  ∨ (prisma.orderItem_findMany id w = (w, inl (PersistenceError RecordNotFound))
     ∧ ¬ (∀ it, it ∈ items o → is_Some (products w !! productId it))).
Proof.
  intros Ho. unfold prisma.orderItem_findMany. rewrite Ho.
  destruct (mapM _ (items o)) as [rows|] eqn:Hm.
  - left. exists rows. split; [done|].
    apply mapM_Some in Hm.
    induction Hm as [|it row its rows Hrow _ IH]; simpl.
    + split; [done|]. intros row Hr. by apply elem_of_nil in Hr.
    + destruct IH as [IH1 IH2].
      apply fmap_Some in Hrow as (p & Hp & ->). simpl. split; [by f_equal|].
      intros r Hr. apply elem_of_cons in Hr as [->|Hr]; [done|by apply IH2].
  - right. split; [done|]. intros Hall.
    assert (is_Some (mapM (λ it, pair it <$> products w !! productId it)
                       (items o))) as [rows Hrows]; [|congruence].
    apply mapM_is_Some. apply Forall_forall. intros it Hit.
    destruct (Hall it Hit) as [p Hp]. simpl. rewrite Hp. simpl. eauto.
Qed.

Lemma adjust_outcome id o start delta avail line w :
  orders w !! id = Some o →
  ∃ m' lines r,
    adjust id start delta avail line w
    = (mkWorld m' (orders w) (console w ++ lines) (emitted w), r)
    ∧ adjusted (items o) start delta avail line (products w) m' lines r.
Proof.
  intros Ho. unfold adjust, bind at 1, console_log at 1.
  set (w1 := mkWorld _ _ _ _).
  assert (orders w1 !! id = Some o) as Ho1 by done.
  unfold bind.
  destruct (findMany_rows id o w1 Ho1) as [(rows & -> & Hfst & Hrows)|[-> Hno]].
  - destruct (stock_loop_outcome delta avail line rows w1)
      as (k & m' & r & Hrun & Hend & Happ).
    { intros row Hr. rewrite (Hrows row Hr). eauto. }
    rewrite Hrun. exists m', (start :: map line (take k rows)), r.
    split; [subst w1; simpl; by rewrite <- app_assoc|].
    right. by exists rows, k.
  - exists (products w), [start], (inl (PersistenceError RecordNotFound)).
    split; [done|]. left. by repeat split.
Qed.

Lemma updateProductStock_eq id order w :
  updateProductStock id order w
  = if paid_and_preparing order
    then adjust id (StockUpdateStarted id) dec_delta dec_avail dec_line w
    else (w, inr tt).
Proof.
  unfold updateProductStock, paid_and_preparing.
  destruct (isPaid order && status_is (status order) "PREPARING"); [|done].
  unfold adjust, bind. destruct (console_log _ w) as [w1 [e|[]]]; [done|].
  destruct (prisma.orderItem_findMany id w1) as [w2 [e|rows]]; [done|].
  apply for_of_ext. by intros [item product] w'.
Qed.

Lemma restoreProductStock_eq id order previousStatus w :
  restoreProductStock id order previousStatus w
  = if shouldRestoreStock order previousStatus
    then adjust id (StockRestoreStarted id) res_delta res_avail res_line w
    else (w, inr tt).
Proof.
  unfold restoreProductStock, shouldRestoreStock.
  destruct (_ || _); [|done].
  unfold adjust, bind. destruct (console_log _ w) as [w1 [e|[]]]; [done|].
  destruct (prisma.orderItem_findMany id w1) as [w2 [e|rows]]; [done|].
  apply for_of_ext. by intros [item product] w'.
Qed.

(** The two stock functions never both act on one updated order. *)
Lemma guards_exclusive order previousStatus :
  paid_and_preparing order && shouldRestoreStock order previousStatus = false.
Proof.
  unfold paid_and_preparing, shouldRestoreStock.
  by destruct (isPaid order), (status order), previousStatus.
Qed.

(** ** The [update_order_status] listener *)

Lemma order_update_ok data o st w :
  orders w !! orderId data = Some o →
  prisma.enum_column (data_status data) (status o) = inr st →
  prisma.order_update (orderId data) (data_status data) (data_isPaid data)
    match data_status data with
    | Some (String c rest as s) =>
        Some (s, JS.or_string (data_note data)
                   ("Statut modifié de " +:+ status_name (status o)
                      +:+ " à " +:+ s))
    | _ => None
    end w
  = (set_orders <[orderId data := updated_order data o st]> w,
     inr (updated_order data o st)).
Proof.
  intros Ho Hst. unfold prisma.order_update. rewrite Ho, Hst.
  unfold updated_order, appended_history, prisma.enum_column in *.
  destruct (data_status data) as [[|c rest]|]; simpl in *.
  - discriminate.
  - destruct (parse_status (String c rest)); [|discriminate].
    by injection Hst as ->.
  - done.
Qed.

Lemma when_updateProductStock b id order w :
  when b (updateProductStock id order) w
  = if b && paid_and_preparing order
    then adjust id (StockUpdateStarted id) dec_delta dec_avail dec_line w
    else (w, inr tt).
Proof. destruct b; simpl; [apply updateProductStock_eq|done]. Qed.

Lemma when_restoreProductStock b id order previousStatus w :
  when b (restoreProductStock id order previousStatus) w
  = if b && shouldRestoreStock order previousStatus
    then adjust id (StockRestoreStarted id) res_delta res_avail res_line w
    else (w, inr tt).
Proof. destruct b; simpl; [apply restoreProductStock_eq|done]. Qed.

Lemma emits_exact id o b w :
  (console_log (OrderSaved id) ;;;
   emit (order_updated id) ;;;
   emit (order_status_changed id (status o) (isPaid o)) ;;;
   when b (updatedProducts <- prisma.product_findMany_in
                                (map productId (items o)) ;;
           emit (products_updated updatedProducts))) w
  = (broadcast id o b w, inr tt).
Proof.
  unfold broadcast, bind, emit, console_log, when, ret,
    prisma.product_findMany_in.
  destruct b; simpl; by rewrite <- !app_assoc.
Qed.

(** The listener on an order that the store accepts to rewrite: the row is
    written, at most one of the two stock functions runs, and the line and
    the events of the end follow unless it threw. *)
Lemma update_accepted data w o st :
  orders w !! orderId data = Some o →
  prisma.enum_column (data_status data) (status o) = inr st →
  let o' := updated_order data o st in
  let dec := decrement_trigger data (status o) o' && paid_and_preparing o' in
  let res := restore_trigger data (status o) (isPaid o)
             && shouldRestoreStock o' (status o) in
  ∃ m' lines r,
    update_order_status_try data w
    = update_result data o'
        (products_updated_trigger data (status o) (isPaid o) o') w m' lines r
    ∧ ((dec = false ∧ res = false ∧ m' = products w ∧ lines = []
        ∧ r = inr tt)
       ∨ (dec = true ∧ res = false
          ∧ adjusted (items o) (StockUpdateStarted (orderId data))
              dec_delta dec_avail dec_line (products w) m' lines r)
       ∨ (dec = false ∧ res = true
          ∧ adjusted (items o) (StockRestoreStarted (orderId data))
              res_delta res_avail res_line (products w) m' lines r)).
Proof.
  intros Ho Hst o' dec res.
  unfold update_order_status_try, bind at 1, console_log at 1.
  set (w0 := mkWorld _ _ _ _).
  assert (orders w0 !! orderId data = Some o) as Ho0 by done.
  unfold bind at 1, prisma.order_findUnique. rewrite Ho0. unfold bind at 1.
  rewrite (order_update_ok data o st w0 Ho0 Hst). fold o'.
  set (w1 := set_orders _ w0).
  assert (orders w1 !! orderId data = Some o') as Ho1.
  { subst w1. simpl. apply lookup_insert_eq. }
  fold (products_updated_trigger data (status o) (isPaid o) o').
  fold (decrement_trigger data (status o) o').
  fold (restore_trigger data (status o) (isPaid o)).
  pose proof (guards_exclusive o' (status o)) as Hex.
  unfold bind at 1. rewrite when_updateProductStock. fold dec.
  destruct dec eqn:Hdec.
  - assert (res = false) as Hres.
    { subst dec res. apply andb_true_iff in Hdec as [_ Hpp].
      rewrite Hpp in Hex. simpl in Hex. rewrite Hex. apply andb_false_r. }
    destruct (adjust_outcome (orderId data) o' (StockUpdateStarted (orderId data))
                dec_delta dec_avail dec_line w1 Ho1)
      as (m' & lines & r & -> & Hadj).
    exists m', lines, r. split; [|right; left; by repeat split].
    unfold update_result. destruct r as [e|[]].
    { subst w1 w0; simpl. by rewrite <- app_assoc. }
    unfold bind at 1. rewrite when_restoreProductStock. fold res.
    rewrite Hres. cbv beta iota. rewrite emits_exact.
    subst w1 w0; simpl. by rewrite <- app_assoc.
  - unfold bind at 1. rewrite when_restoreProductStock. fold res.
    destruct res eqn:Hres.
    + destruct (adjust_outcome (orderId data) o'
                  (StockRestoreStarted (orderId data))
                  res_delta res_avail res_line w1 Ho1)
        as (m' & lines & r & -> & Hadj).
      exists m', lines, r. split; [|right; right; by repeat split].
      unfold update_result. destruct r as [e|[]].
      { subst w1 w0; simpl. by rewrite <- app_assoc. }
      cbv beta iota. rewrite emits_exact.
      subst w1 w0; simpl. by rewrite <- app_assoc.
    + exists (products w), [], (inr tt). split; [|left; by repeat split].
      cbv beta iota. rewrite emits_exact. done.
Qed.

Lemma update_try_not_found data w :
  orders w !! orderId data = None →
  update_order_status_try data w
  = (mkWorld (products w) (orders w) (console w ++ [UpdateReceived data])
       (emitted w),
     inl (OrderNotFound (orderId data))).
Proof.
  intros Ho. unfold update_order_status_try, bind, prisma.order_findUnique,
    console_log. simpl. by rewrite Ho.
Qed.

Lemma update_try_refused data w o e :
  orders w !! orderId data = Some o →
  prisma.enum_column (data_status data) (status o) = inl e →
  update_order_status_try data w
  = (mkWorld (products w) (orders w) (console w ++ [UpdateReceived data])
       (emitted w),
     inl e).
Proof.
  intros Ho He. unfold update_order_status_try, bind at 1, console_log at 1.
  unfold bind at 1, prisma.order_findUnique. simpl. rewrite Ho.
  unfold bind at 1, prisma.order_update. simpl. by rewrite Ho, He.
Qed.

(** The listener after its [try] block. *)
Lemma update_order_status_eq data w :
  update_order_status data w
  = match update_order_status_try data w with
    | (w', inr _) => w'
    | (w', inl e) => update_failed e w'
    end.
Proof.
  unfold update_order_status.
  by destruct (update_order_status_try data w) as [w' [e|[]]].
Qed.

(** The tables, the console and the events after an accepted call. *)
Lemma update_result_world data o' flag w m' lines r :
  update_order_status_try data w = update_result data o' flag w m' lines r →
  let w' := update_order_status data w in
  products w' = m'
  ∧ orders w' = <[orderId data := o']> (orders w)
  ∧ console w'
    = (console w ++ UpdateReceived data :: lines
         ++ [match r with
             | inr _ => OrderSaved (orderId data)
             | inl e => UpdateFailed e
             end])%list
  ∧ emitted w'
    = (emitted w
         ++ match r with
            | inr _ =>
                [order_updated (orderId data);
                 order_status_changed (orderId data) (status o') (isPaid o')]
                ++ (if flag
                    then [products_updated
                            (filter (λ kp, kp.1 ∈ map productId (items o'))
                               (map_to_list m'))]
                    else [])
            | inl e => [update_error e]
            end)%list.
Proof.
  intros Htry w'. subst w'. rewrite update_order_status_eq, Htry.
  unfold update_result. destruct r as [e|[]]; simpl.
  - by rewrite <- app_assoc.
  - by rewrite <- app_assoc.
Qed.

(** ** Sums of quantities *)

Lemma sum_dec rows pid :
  sum_delta dec_delta rows pid = - ordered_qty (map fst rows) pid.
Proof.
  induction rows as [|row rows IH]; simpl; [done|].
  rewrite IH. unfold dec_delta. case_decide; lia.
Qed.

Lemma sum_res rows pid :
  sum_delta res_delta rows pid = ordered_qty (map fst rows) pid.
Proof.
  induction rows as [|row rows IH]; simpl; [done|].
  rewrite IH. unfold res_delta. case_decide; lia.
Qed.

Lemma ordered_qty_nonneg its pid :
  (∀ it, it ∈ its → 0 ≤ quantity it) → 0 ≤ ordered_qty its pid.
Proof.
  induction its as [|it its IH]; simpl; intros Hq; [done|].
  assert (0 ≤ quantity it) by (apply Hq; left).
  assert (0 ≤ ordered_qty its pid) by (apply IH; intros; apply Hq; by right).
  case_decide; lia.
Qed.

(** A part of the items asks no more than all of them when no quantity is
    negative. *)
Lemma ordered_qty_take_le its pid : ∀ k,
  (∀ it, it ∈ its → 0 ≤ quantity it) →
  0 ≤ ordered_qty (take k its) pid ≤ ordered_qty its pid.
Proof.
  induction its as [|it its IH]; intros k Hq; [by destruct k|].
  assert (0 ≤ quantity it) by (apply Hq; left).
  assert (∀ it', it' ∈ its → 0 ≤ quantity it') as Hq'
    by (intros; apply Hq; by right).
  pose proof (ordered_qty_nonneg its pid Hq').
  destruct k as [|k]; simpl; [case_decide; lia|].
  specialize (IH k Hq'). case_decide; lia.
Qed.

Lemma ordered_abs_nonneg its pid : 0 ≤ ordered_abs its pid.
Proof. induction its as [|it its IH]; simpl; [done|]. case_decide; lia. Qed.

(** What a part of the items asks, and what the rest asks, is bounded by the
    absolute quantities of all of them. *)
Lemma ordered_qty_take_abs its pid : ∀ k,
  Z.abs (ordered_qty (take k its) pid) ≤ ordered_abs its pid
  ∧ Z.abs (ordered_qty its pid - ordered_qty (take k its) pid)
    ≤ ordered_abs its pid.
Proof.
  induction its as [|it its IH]; intros k; [by destruct k|].
  pose proof (ordered_abs_nonneg its pid).
  destruct k as [|k]; simpl.
  - destruct (IH 0%nat) as [_ IH2]. simpl in IH2. case_decide; lia.
  - destruct (IH k) as [IH1 IH2]. case_decide; lia.
Qed.

Lemma ordered_qty_unreferenced its pid :
  pid ∉ map productId its → ordered_qty its pid = 0.
Proof.
  induction its as [|it its IH]; simpl; intros Hnot; [done|].
  rewrite IH by (intros Hin; apply Hnot; by right).
  rewrite decide_False; [done|]. intros Heq. apply Hnot. rewrite Heq. left.
Qed.

Lemma ordered_qty_perm its its' pid :
  its ≡ₚ its' → ordered_qty its pid = ordered_qty its' pid.
Proof. induction 1; simpl; lia. Qed.

Lemma ordered_abs_perm its its' pid :
  its ≡ₚ its' → ordered_abs its pid = ordered_abs its' pid.
Proof. induction 1; simpl; lia. Qed.

Lemma last_qty_referenced its pid :
  pid ∈ map productId its → is_Some (last_qty its pid).
Proof.
  induction its as [|it its IH]; simpl; intros Hin.
  - by apply elem_of_nil in Hin.
  - destruct (last_qty its pid) as [q|] eqn:Hq; [by eexists|].
    apply elem_of_cons in Hin as [->|Hin].
    + rewrite decide_True by done. by eexists.
    + destruct (IH Hin) as [? ?]. congruence.
Qed.

Lemma last_qty_unreferenced its pid :
  pid ∉ map productId its → last_qty its pid = None.
Proof.
  induction its as [|it its IH]; simpl; intros Hnot; [done|].
  rewrite IH by (intros Hin; apply Hnot; by right).
  rewrite decide_False; [done|]. intros Heq. apply Hnot. rewrite Heq. left.
Qed.

Lemma ordered_qty_distinct its pid q :
  NoDup (map productId its) → last_qty its pid = Some q →
  ordered_qty its pid = q.
Proof.
  induction its as [|it its IH]; simpl; intros Hnd Hq; [done|].
  apply NoDup_cons in Hnd as [Hnot Hnd].
  destruct (last_qty its pid) as [q'|] eqn:Hlast.
  - injection Hq as ->. rewrite (IH Hnd eq_refl).
    rewrite decide_False; [lia|]. intros Heq. apply Hnot. rewrite Heq.
    destruct (decide (pid ∈ map productId its)) as [Hin|Hnin]; [done|].
    rewrite (last_qty_unreferenced its pid Hnin) in Hlast. discriminate.
  - case_decide as Heq; [|done]. injection Hq as <-.
    rewrite ordered_qty_unreferenced; [lia|]. by rewrite <- Heq.
Qed.

(** ** Stock loops that stay in range *)

Lemma stock_in_range_no_overflow its m sign :
  sign = 1 ∨ sign = -1 → stock_in_range its m → no_overflow sign its m.
Proof.
  intros Hsign Hrange k pid p Hp.
  destruct (Hrange pid p Hp) as [Hlo Hhi].
  destruct (ordered_qty_take_abs its pid k) as [Habs _].
  unfold int4. destruct Hsign as [-> | ->]; lia.
Qed.

(** A run of [adjust] whose updates stay in range, on items that have their
    products, applies every row. *)
Lemma adjusted_complete its start delta avail line m m' lines r sign :
  adjusted its start delta avail line m m' lines r →
  (∀ it, it ∈ its → is_Some (m !! productId it)) →
  (∀ rows pid, sum_delta delta rows pid
               = sign * ordered_qty (map fst rows) pid) →
  no_overflow sign its m →
  ∃ rows, map fst rows = its
    ∧ (∀ row, row ∈ rows → m !! productId row.1 = Some row.2)
    ∧ lines = start :: map line rows
    ∧ r = inr tt
    ∧ rows_applied delta avail rows m m'.
Proof.
  intros [(_ & _ & _ & Hno)|(rows & k & Hfst & Hrows & -> & Hend & Happ)]
    Hfk Hsum Hrange; [done|].
  destruct Hend as [[-> ->]|(_ & row & p & Hk & Hp & Hbad)].
  - exists rows. rewrite (take_ge rows (length rows)) in * by lia.
    repeat (split; [done|]). done.
  - destruct Hbad. rewrite Hsum, <- firstn_map, Hfst. by apply Hrange.
Qed.

(** The part of a loop that has run has changed the products by what its
    rows ask. *)
Lemma adjusted_partial its start delta avail line m m' lines r sign :
  adjusted its start delta avail line m m' lines r →
  (∀ rows pid, sum_delta delta rows pid
               = sign * ordered_qty (map fst rows) pid) →
  ∃ k, (∀ pid, m !! pid = None → m' !! pid = None)
    ∧ ∀ pid p, m !! pid = Some p →
        ∃ p', m' !! pid = Some p'
            ∧ name p' = name p
            ∧ stock p' = stock p + sign * ordered_qty (take k its) pid
            ∧ (pid ∉ map productId its → p' = p).
Proof.
  intros [(-> & _)|(rows & k & Hfst & Hrows & -> & Hend & Hnone & Happ)] Hsum.
  - exists 0%nat. split; [done|]. intros pid p Hp. exists p.
    replace (take 0 its) with (@nil OrderItem) by by destruct its.
    simpl. rewrite Z.mul_0_r, Z.add_0_r. by repeat split.
  - exists k. split; [done|]. intros pid p Hp.
    destruct (Happ pid p Hp) as (p' & Hl & Hn & Hs & Hun & _).
    exists p'. split; [done|]. split; [done|]. split.
    + by rewrite Hs, Hsum, <- firstn_map, Hfst.
    + intros Hnot. apply Hun. intros Hin. apply Hnot.
      rewrite <- Hfst, <- list_fmap_compose.
      apply list_elem_of_fmap in Hin as (row & -> & Hrow).
      apply list_elem_of_fmap. exists row. split; [done|].
      by apply (subseteq_take k rows).
Qed.

Lemma sum_dec_sign rows pid :
  sum_delta dec_delta rows pid = -1 * ordered_qty (map fst rows) pid.
Proof. rewrite sum_dec. lia. Qed.

Lemma sum_res_sign rows pid :
  sum_delta res_delta rows pid = 1 * ordered_qty (map fst rows) pid.
Proof. rewrite sum_res. lia. Qed.

(** A string accepted for an [OrderStatus] column is the name of the value
    stored. *)
Lemma parse_status_name s st : parse_status s = Some st → s = status_name st.
Proof.
  unfold parse_status.
  destruct (String.eqb_spec s "NEW") as [->|_]; [by intros [= <-]|].
  destruct (String.eqb_spec s "PREPARING") as [->|_]; [by intros [= <-]|].
  destruct (String.eqb_spec s "READY") as [->|_]; [by intros [= <-]|].
  destruct (String.eqb_spec s "COMPLETED") as [->|_]; [by intros [= <-]|].
  destruct (String.eqb_spec s "CANCELLED") as [->|_]; [by intros [= <-]|].
  discriminate.
Qed.

Lemma parse_status_of_name st : parse_status (status_name st) = Some st.
Proof. by destruct st. Qed.

Lemma accepted_column data o st :
  (data_status data = None ∧ st = status o
   ∨ data_status data = Some (status_name st)) →
  prisma.enum_column (data_status data) (status o) = inr st.
Proof.
  unfold prisma.enum_column. intros [[-> ->] | ->]; [done|].
  by rewrite parse_status_of_name.
Qed.

Lemma decrement_guard_iff data o st :
  (data_status data = None ∧ st = status o
   ∨ data_status data = Some (status_name st)) →
  decrement_trigger data (status o) (updated_order data o st)
    && paid_and_preparing (updated_order data o st) = true
  ↔ st = PREPARING ∧ default (isPaid o) (data_isPaid data) = true
    ∧ (data_status data = Some "PREPARING"
       ∨ (status o = PREPARING ∧ data_isPaid data = Some true)).
Proof.
  intros Hst. unfold decrement_trigger, paid_and_preparing. simpl.
  destruct (data_isPaid data) as [[]|];
    (destruct Hst as [[Hd Hs] | Hd]; rewrite Hd; [subst st|destruct st]);
    destruct (status o), (isPaid o); unfold status_is; simpl;
    intuition congruence.
Qed.

Lemma restore_guard_iff data o st :
  (data_status data = None ∧ st = status o
   ∨ data_status data = Some (status_name st)) →
  restore_trigger data (status o) (isPaid o)
    && shouldRestoreStock (updated_order data o st) (status o) = true
  ↔ status o = PREPARING
    ∧ (data_status data = Some "CANCELLED"
       ∨ (isPaid o = true ∧ data_isPaid data = Some false
          ∧ st = PREPARING)).
Proof.
  intros Hst. unfold restore_trigger, shouldRestoreStock. simpl.
  destruct (data_isPaid data) as [[]|];
    (destruct Hst as [[Hd Hs] | Hd]; rewrite Hd; [subst st|destruct st]);
    destruct (status o), (isPaid o); unfold status_is; simpl;
    intuition congruence.
Qed.

Lemma products_updated_trigger_iff data o st :
  (data_status data = None ∧ st = status o
   ∨ data_status data = Some (status_name st)) →
  products_updated_trigger data (status o) (isPaid o) (updated_order data o st)
  = true
  ↔ (data_status data = Some "PREPARING"
     ∧ default (isPaid o) (data_isPaid data) = true)
    ∨ (status o = PREPARING ∧ data_isPaid data = Some true)
    ∨ (status o = PREPARING ∧ data_status data = Some "CANCELLED")
    ∨ (status o = PREPARING ∧ isPaid o = true
       ∧ data_isPaid data = Some false).
Proof.
  intros Hst. unfold products_updated_trigger. simpl.
  destruct (data_isPaid data) as [[]|];
    (destruct Hst as [[Hd Hs] | Hd]; rewrite Hd; [subst st|destruct st]);
    destruct (status o), (isPaid o); unfold status_is; simpl;
    intuition congruence.
Qed.

(** The tables after an accepted call on an order whose items have their
    products, when the updates of the stock function that runs stay in
    range: no step throws and every row is applied. *)
Lemma update_outcome data w o st :
  orders w !! orderId data = Some o →
  prisma.enum_column (data_status data) (status o) = inr st →
  (∀ it, it ∈ items o → is_Some (products w !! productId it)) →
  let o' := updated_order data o st in
  let dec := decrement_trigger data (status o) o' && paid_and_preparing o' in
  let res := restore_trigger data (status o) (isPaid o)
             && shouldRestoreStock o' (status o) in
  let w' := update_order_status data w in
  (dec = true → no_overflow (-1) (items o) (products w)) →
  (res = true → no_overflow 1 (items o) (products w)) →
  (update_order_status_try data w).2 = inr tt
  ∧ orders w' = <[orderId data := o']> (orders w)
  ∧ emitted w'
    = (emitted w
         ++ [order_updated (orderId data);
             order_status_changed (orderId data) (status o') (isPaid o')]
         ++ (if products_updated_trigger data (status o) (isPaid o) o'
             then [products_updated
                     (filter (λ kp, kp.1 ∈ map productId (items o'))
                        (map_to_list (products w')))]
             else []))%list
  ∧ (∀ pid, products w !! pid = None → products w' !! pid = None)
  ∧ ∀ pid p, products w !! pid = Some p →
      ∃ p', products w' !! pid = Some p'
          ∧ name p' = name p
          ∧ stock p'
            = stock p + (if dec then - ordered_qty (items o) pid
                         else if res then ordered_qty (items o) pid else 0)
          ∧ (pid ∉ map productId (items o) → p' = p)
          ∧ (res = true → pid ∈ map productId (items o) →
             isAvailable p' = true)
          ∧ (dec = true →
             isAvailable p'
             = match last_qty (items o) pid with
               | Some q => bool_decide (stock p - q > 0)
               | None => isAvailable p
               end).
Proof.
  intros Ho Hcol Hfk o' dec res w' Hdecr Hresr.
  destruct (update_accepted data w o st Ho Hcol)
    as (m' & lines & r & Htry & Hcases).
  destruct (update_result_world _ _ _ _ _ _ _ Htry) as (Hp & Hos & _ & Hem).
  fold w' in Hp, Hos, Hem. fold o' dec res in Hcases.
  assert (∀ delta avail line start sign,
            adjusted (items o) start delta avail line (products w) m' lines r →
            (∀ rows pid, sum_delta delta rows pid
                         = sign * ordered_qty (map fst rows) pid) →
            no_overflow sign (items o) (products w) →
            r = inr tt
            ∧ ∃ rows, map fst rows = items o
                ∧ (∀ row, row ∈ rows →
                     products w !! productId row.1 = Some row.2)
                ∧ rows_applied delta avail rows (products w) m') as Hfull.
  { intros delta avail line start sign Hadj Hsum Hrange.
    destruct (adjusted_complete _ _ _ _ _ _ _ _ _ sign Hadj Hfk Hsum Hrange)
      as (rows & Hfst & Hrows & _ & -> & Happ).
    split; [done|]. by exists rows. }
  assert (∀ rows pid, map fst rows = items o →
            pid ∉ map productId (items o) →
            pid ∉ map (λ r : OrderItem * Product, productId r.1) rows)
    as Hids.
  { intros rows pid <- Hnot. by rewrite <- list_fmap_compose in Hnot. }
  rewrite Htry. rewrite Hp, Hos, Hem.
  destruct Hcases as [(Hd & Hr & -> & -> & ->)
                     |[(Hd & Hr & Hadj)|(Hd & Hr & Hadj)]];
    rewrite ?Hd, ?Hr in *.
  - split; [done|]. split; [done|]. split; [done|]. split; [done|].
    intros pid p Hpid. exists p. rewrite Z.add_0_r. by repeat split.
  - destruct (Hfull _ _ _ _ (-1) Hadj sum_dec_sign (Hdecr eq_refl))
      as (-> & rows & Hfst & Hrows & Hnone & Happ).
    split; [done|]. split; [done|]. split; [done|]. split; [done|].
    intros pid p Hpid.
    destruct (Happ pid p Hpid) as (p' & Hl & Hn & Hs & Hun & Hav).
    exists p'. split; [done|]. split; [done|].
    split; [rewrite Hs, sum_dec, Hfst; lia|].
    split; [intros Hnot; apply Hun; by apply Hids|].
    split; [done|]. intros _.
    rewrite Hav, <- Hfst, <- last_row_qty.
    destruct (last_row rows pid) as [row|] eqn:Hrow; simpl; [|done].
    apply last_row_spec in Hrow as [Hin Hpid'].
    specialize (Hrows row Hin). rewrite Hpid', Hpid in Hrows.
    injection Hrows as ->. done.
  - destruct (Hfull _ _ _ _ 1 Hadj sum_res_sign (Hresr eq_refl))
      as (-> & rows & Hfst & Hrows & Hnone & Happ).
    split; [done|]. split; [done|]. split; [done|]. split; [done|].
    intros pid p Hpid.
    destruct (Happ pid p Hpid) as (p' & Hl & Hn & Hs & Hun & Hav).
    exists p'. split; [done|]. split; [done|].
    split; [rewrite Hs, sum_res, Hfst; lia|].
    split; [intros Hnot; apply Hun; by apply Hids|].
    split; [|done]. intros _ Hin. rewrite Hav.
    rewrite <- Hfst, <- list_fmap_compose in Hin.
    by destruct (last_row_referenced rows pid Hin) as [row ->].
Qed.

(** The product table after any accepted call: what the stock function that
    ran has applied before it ended or threw. *)
Lemma update_partial data w o st :
  orders w !! orderId data = Some o →
  prisma.enum_column (data_status data) (status o) = inr st →
  let o' := updated_order data o st in
  let dec := decrement_trigger data (status o) o' && paid_and_preparing o' in
  let res := restore_trigger data (status o) (isPaid o)
             && shouldRestoreStock o' (status o) in
  let w' := update_order_status data w in
  orders w' = <[orderId data := o']> (orders w)
  ∧ ∃ k, (∀ pid, products w !! pid = None → products w' !! pid = None)
    ∧ ∀ pid p, products w !! pid = Some p →
        ∃ p', products w' !! pid = Some p'
            ∧ name p' = name p
            ∧ stock p'
              = stock p + (if dec then - ordered_qty (take k (items o)) pid
                           else if res then ordered_qty (take k (items o)) pid
                           else 0)
            ∧ (pid ∉ map productId (items o) → p' = p).
Proof.
  intros Ho Hcol o' dec res w'.
  destruct (update_accepted data w o st Ho Hcol)
    as (m' & lines & r & Htry & Hcases).
  destruct (update_result_world _ _ _ _ _ _ _ Htry) as (Hp & Hos & _ & _).
  fold w' in Hp, Hos. fold o' dec res in Hcases.
  rewrite Hp, Hos. split; [done|].
  destruct Hcases as [(Hd & Hr & -> & -> & ->)
                     |[(Hd & Hr & Hadj)|(Hd & Hr & Hadj)]];
    rewrite ?Hd, ?Hr in *.
  - exists 0%nat. split; [done|]. intros pid p Hpid. exists p.
    rewrite Z.add_0_r. by repeat split.
  - destruct (adjusted_partial _ _ _ _ _ _ _ _ _ (-1) Hadj sum_dec_sign)
      as (k & Hnone & Hsome).
    exists k. split; [done|]. intros pid p Hpid.
    destruct (Hsome pid p Hpid) as (p' & Hl & Hn & Hs & Hun).
    exists p'. repeat split; try done; lia.
  - destruct (adjusted_partial _ _ _ _ _ _ _ _ _ 1 Hadj sum_res_sign)
      as (k & Hnone & Hsome).
    exists k. split; [done|]. intros pid p Hpid.
    destruct (Hsome pid p Hpid) as (p' & Hl & Hn & Hs & Hun).
    exists p'. repeat split; try done; lia.
Qed.

(** A call that names no order, or that the store refuses, changes no
    table. *)
Lemma update_rejected_tables data w :
  orders w !! orderId data = None
  ∨ (∃ o e, orders w !! orderId data = Some o
          ∧ prisma.enum_column (data_status data) (status o) = inl e) →
  products (update_order_status data w) = products w
  ∧ orders (update_order_status data w) = orders w.
Proof.
  rewrite update_order_status_eq.
  intros [Ho|(o & e & Ho & Hcol)].
  - by rewrite (update_try_not_found data w Ho).
  - by rewrite (update_try_refused data w o e Ho Hcol).
Qed.

(** ** The [new_order] listener *)

Lemma insert_row_perm rank it rows :
  prisma.insert_row rank it rows ≡ₚ it :: rows.
Proof.
  induction rows as [|row rows IH]; simpl; [done|].
  case_decide; [done|]. rewrite IH. apply Permutation_swap.
Qed.

(** The store returns the items that it was given, in its own order. *)
Lemma stored_rows_perm rank its : prisma.stored_rows rank its ≡ₚ its.
Proof.
  induction its as [|it its IH]; simpl; [done|].
  rewrite insert_row_perm. by rewrite IH.
Qed.

Lemma resolve_line_found item p w :
  products w !! item_id item = Some p →
  resolve_line item w = (w, inr (to_item item)).
Proof.
  intros Hp. unfold resolve_line, bind, prisma.product_findFirst.
  by rewrite Hp.
Qed.

Lemma resolve_line_missing item w :
  products w !! item_id item = None →
  resolve_line item w = (w, inl (ProductNotFound (item_id item))).
Proof.
  intros Hp. unfold resolve_line, bind, prisma.product_findFirst.
  by rewrite Hp.
Qed.

(** Either every line of the cart names a product and the items are built,
    or the lines fail on one that names none; no table is touched. *)
Lemma resolve_outcome (lines : list ProductItem) w :
  (promise_all_map lines resolve_line w = (w, inr (map to_item lines))
   ∧ ∀ line, line ∈ lines → is_Some (products w !! item_id line))
  ∨ (∃ line, line ∈ lines ∧ products w !! item_id line = None
           ∧ promise_all_map lines resolve_line w
             = (w, inl (ProductNotFound (item_id line)))).
Proof.
  induction lines as [|line lines IH].
  - left. split; [done|]. intros line Hl. by apply elem_of_nil in Hl.
  - destruct (products w !! item_id line) as [p|] eqn:Hp.
    + destruct IH as [[Hrun Hall]|(l & Hl & Hnone & Hrun)].
      * left. split.
        -- cbn [promise_all_map]. unfold bind at 1.
           rewrite (resolve_line_found line p w Hp). unfold bind at 1.
           by rewrite Hrun.
        -- intros l Hl.
           apply elem_of_cons in Hl as [->|Hl]; [by eexists|by apply Hall].
      * right. exists l. split; [by right|]. split; [done|].
        cbn [promise_all_map]. unfold bind at 1.
        rewrite (resolve_line_found line p w Hp). unfold bind at 1.
        by rewrite Hrun.
    + right. exists line. split; [left|]. split; [done|].
      cbn [promise_all_map]. unfold bind at 1.
      by rewrite (resolve_line_missing line w Hp).
Qed.

(** The [try] block of [new_order], step by step. *)
Lemma new_order_try_eq env d w :
  new_order_try env d w
  = let w0 := mkWorld (products w) (orders w)
                (console w ++ [NewOrderReceived d]) (emitted w) in
    match paiement d with
    | None => (w0, inl (TypeError "toUpperCase"))
    | Some method =>
        match promise_all_map (panier d) resolve_line w0 with
        | (w1, inl e) => (w1, inl e)
        | (w1, inr its) =>
            match prisma.order_create env
                    (mkOrderCreate (next_number env (orders w)) (data_nom d)
                       (mapPaymentMethod method) (JS.parseFloat (total d)) its
                       (mkStatusHistory NEW (Some "Commande créée"))
                       (if JS.truthy (instructions d) then instructions d
                        else None)) w1 with
            | (w2, inl e) => (w2, inl e)
            | (w2, inr created) =>
                (mkWorld (products w2) (orders w2)
                   (console w2 ++ [OrderCreated created.1])
                   (emitted w2
                      ++ [order_confirmation created.1 (number created.2);
                          new_order_received created.1]),
                 inr created)
            end
        end
    end.
Proof.
  unfold new_order_try, bind at 1, console_log at 1.
  unfold bind at 1. rewrite generateOrderNumber_eq. cbn [orders].
  unfold bind at 1. destruct (paiement d) as [method|]; [|done].
  unfold ret at 1. unfold bind at 1.
  change (promise_all_map (panier d) _)
    with (promise_all_map (panier d) resolve_line).
  destruct (promise_all_map (panier d) resolve_line _) as [w1 [e|its]];
    [done|].
  cbv zeta. unfold bind at 1.
  destruct (JS.truthy (instructions d)); simpl;
    match goal with
    | |- context [prisma.order_create ?e ?c ?w] =>
        destruct (prisma.order_create e c w) as [w2 [err|created]]
    end; try done;
    unfold bind, console_log, emit, ret; simpl; by rewrite <- app_assoc.
Qed.

(** What the check of the store asks of a payload whose lines have
    resolved. *)
Lemma create_refusal_iff d num method :
  prisma.create_refusal (order_create_data d num method) = None
  ↔ is_Some (data_nom d)
    ∧ JS.isFinite (JS.parseFloat (total d)) = true
    ∧ JS.truthy (instructions d) = false
    ∧ ∀ line, line ∈ panier d →
        JS.isFinite (prix line) = true ∧ int4 (JS.or_one (item_quantity line)).
Proof.
  unfold prisma.create_refusal, order_create_data. simpl.
  assert (forallb (λ it, JS.isFinite (unitPrice it)) (map to_item (panier d))
          = true
          ↔ ∀ line, line ∈ panier d → JS.isFinite (prix line) = true) as Hprix.
  { rewrite forallb_forall. split.
    - intros H line Hl. apply (H (to_item line)), in_map.
      by apply list_elem_of_In.
    - intros H it Hit. apply in_map_iff in Hit as (line & <- & Hl).
      apply H. by apply list_elem_of_In. }
  assert (forallb (λ it, bool_decide (int4 (quantity it)))
            (map to_item (panier d)) = true
          ↔ ∀ line, line ∈ panier d → int4 (JS.or_one (item_quantity line)))
    as Hqty.
  { rewrite forallb_forall. split.
    - intros H line Hl. eapply bool_decide_eq_true_1.
      apply (H (to_item line)), in_map. by apply list_elem_of_In.
    - intros H it Hit. apply in_map_iff in Hit as (line & <- & Hl).
      apply bool_decide_eq_true_2, H. by apply list_elem_of_In. }
  destruct (JS.truthy (instructions d)) eqn:Htruthy.
  { destruct (instructions d) as [[|c s]|]; try discriminate.
    split; [discriminate|]. by intros (_ & _ & ? & _). }
  destruct (data_nom d) as [nm|].
  2: { split; [discriminate|]. by intros ([? ?] & _). }
  destruct (JS.isFinite (JS.parseFloat (total d))) eqn:Hx; simpl.
  2: { split; [discriminate|]. by intros (_ & ? & _). }
  destruct (forallb (λ it, JS.isFinite (unitPrice it)) _) eqn:Hp; simpl.
  2: { split; [discriminate|]. intros (_ & _ & _ & Hlines).
       assert (false = true); [|done]. apply Hprix. intros line Hl.
       by apply Hlines. }
  destruct (forallb (λ it, bool_decide (int4 (quantity it))) _) eqn:Hq; simpl.
  2: { split; [discriminate|]. intros (_ & _ & _ & Hlines).
       assert (false = true); [|done]. apply Hqty. intros line Hl.
       by apply Hlines. }
  split; [|done]. intros _. split; [by eexists|]. split; [done|].
  split; [done|]. intros line Hl. split.
  - by apply Hprix.
  - by apply Hqty.
Qed.

(** [new_order] is all or nothing: it stores the order that it has built,
    under a fresh id, when the payload is well formed, every line names a
    product and the number is free; otherwise it fails and leaves the tables
    as they were. *)
Lemma new_order_outcome env d w :
  let num := next_number env (orders w) in
  let id := fresh (dom (orders w)) in
  (well_formed d
   ∧ (∀ line, line ∈ panier d → is_Some (products w !! item_id line))
   ∧ (∀ id' o, orders w !! id' = Some o → number o ≠ num)
   ∧ orders w !! id = None
   ∧ new_order env d w = new_order_stored d id (created_order env d num) w)
  ∨ (¬ (well_formed d
        ∧ (∀ line, line ∈ panier d → is_Some (products w !! item_id line))
        ∧ (∀ id' o, orders w !! id' = Some o → number o ≠ num))
     ∧ ∃ e, new_order env d w = new_order_refused d e w).
Proof.
  intros num id. unfold new_order. rewrite new_order_try_eq. cbv zeta.
  set (w0 := mkWorld _ _ _ _).
  assert (∀ e, (bind (console_log (NewOrderFailed e))
                  (λ _, emit (order_error e)) w0).1
               = new_order_refused d e w) as Hrefused.
  { intros e. unfold new_order_refused, bind, console_log, emit. simpl.
    by rewrite <- app_assoc. }
  destruct (paiement d) as [method|] eqn:Hpay.
  2: { right. split; [|by eexists].
       intros ((_ & [? Hp] & _) & _). unfold well_formed in *. congruence. }
  destruct (resolve_outcome (panier d) w0)
    as [[-> Hall]|(line & Hl & Hnone & ->)].
  2: { right. split; [|by eexists]. intros (_ & Hall & _).
       destruct (Hall line Hl) as [p Hp]. simpl in Hnone. congruence. }
  fold (order_create_data d (next_number env (orders w))
          (mapPaymentMethod method)).
  fold num. unfold prisma.order_create.
  destruct (prisma.create_refusal (order_create_data d num
                                     (mapPaymentMethod method)))
    as [f|] eqn:Hcheck.
  { right. split; [|by eexists]. intros ((Hn & _ & Ht & Hi & Hlines) & _).
    assert (prisma.create_refusal
              (order_create_data d num (mapPaymentMethod method)) = None)
      as Hok by (by apply create_refusal_iff).
    congruence. }
  apply create_refusal_iff in Hcheck as (Hn & Ht & Hi & Hlines).
  destruct Hn as [nm Hnm].
  cbn [create_customerName order_create_data]. rewrite Hnm.
  change (create_number (order_create_data d num (mapPaymentMethod method)))
    with num.
  destruct (decide (map_Exists (λ _ o, number o = num) (orders w0)))
    as [Htaken|Hfree].
  { right. split; [|by eexists]. intros (_ & _ & Hfree).
    destruct Htaken as (i & x & Hi' & Hx). by apply (Hfree i x). }
  left. split; [|split; [|split; [|split]]].
  - unfold well_formed. rewrite Hnm, Hpay. split; [by eexists|].
    split; [by eexists|]. done.
  - done.
  - intros id' o Ho Heq. apply Hfree. by exists id', o.
  - apply not_elem_of_dom. apply is_fresh.
  - unfold new_order_stored, created_order. simpl. rewrite Hnm, Hpay. simpl.
    by rewrite <- app_assoc.
Qed.

Lemma new_order_stored_eq env d w :
  well_formed d →
  (∀ line, line ∈ panier d → is_Some (products w !! item_id line)) →
  (∀ id o, orders w !! id = Some o → number o ≠ next_number env (orders w)) →
  orders w !! fresh (dom (orders w)) = None
  ∧ new_order env d w
    = new_order_stored d (fresh (dom (orders w)))
        (created_order env d (next_number env (orders w))) w.
Proof.
  intros Hwf Hall Hfree.
  destruct (new_order_outcome env d w)
    as [(_ & _ & _ & Hid & Heq)|[Hnot _]]; [done|].
  destruct Hnot. split; [done|]. by split.
Qed.

(** [new_order] never writes to the product table. *)
Lemma new_order_products env d w : products (new_order env d w) = products w.
Proof.
  destruct (new_order_outcome env d w)
    as [(_ & _ & _ & _ & ->)|(_ & e & ->)]; done.
Qed.

(** The error of a cart with a line that names no product. *)
Lemma new_order_not_found env d w :
  is_Some (paiement d) →
  (∃ line, line ∈ panier d ∧ products w !! item_id line = None) →
  ∃ line, line ∈ panier d ∧ products w !! item_id line = None
        ∧ new_order env d w
          = new_order_refused d (ProductNotFound (item_id line)) w.
Proof.
  intros [method Hpay] (l & Hl & Hnone).
  unfold new_order. rewrite new_order_try_eq. cbv zeta. rewrite Hpay.
  set (w0 := mkWorld _ _ _ _).
  destruct (resolve_outcome (panier d) w0)
    as [[_ Hall]|(line & Hline & Hn & ->)].
  - destruct (Hall l Hl) as [p Hp]. simpl in Hp. congruence.
  - exists line. split; [done|]. split; [done|].
    unfold new_order_refused, bind, console_log, emit. simpl.
    by rewrite <- app_assoc.
Qed.

(** The foreign key holds in every state that the server reaches. *)
Lemma items_resolve_handle r w : items_resolve w → items_resolve (handle r w).
Proof.
  intros Hinv. destruct r as [env d|data]; simpl.
  - destruct (new_order_outcome env d w)
      as [(_ & Hall & _ & _ & ->)|(_ & e & ->)]; [|done].
    intros id o it. simpl. intros Ho Hit.
    apply lookup_insert_Some in Ho as [[_ <-]|[_ Ho]];
      [|by apply (Hinv id o it)].
    simpl in Hit. rewrite stored_rows_perm in Hit.
    apply list_elem_of_fmap in Hit as (l & -> & Hl). by apply Hall.
  - destruct (orders w !! orderId data) as [o|] eqn:Ho.
    2: { destruct (update_rejected_tables data w) as [Hp Hos]; [by left|].
         intros id o it. rewrite Hp, Hos. apply Hinv. }
    destruct (prisma.enum_column (data_status data) (status o))
      as [e|st] eqn:Hcol.
    { destruct (update_rejected_tables data w) as [Hp Hos].
      { right. by exists o, e. }
      intros id o' it. rewrite Hp, Hos. apply Hinv. }
    destruct (update_partial data w o st Ho Hcol) as (Hor & k & _ & Hsome).
    intros id o' it. rewrite Hor. intros Ho' Hit.
    assert (is_Some (products w !! productId it)) as [p Hpid].
    { apply lookup_insert_Some in Ho' as [[_ <-]|[_ Ho']].
      - by apply (Hinv (orderId data) o it).
      - by apply (Hinv id o' it). }
    destruct (Hsome _ p Hpid) as (p' & -> & _). by eexists.
Qed.

Lemma run_cons r rs w : run (r :: rs) w = run rs (handle r w).
Proof. done. Qed.

Lemma items_resolve_run rs : ∀ w, items_resolve w → items_resolve (run rs w).
Proof.
  induction rs as [|r rs IH]; intros w Hinv; [done|].
  rewrite run_cons. apply IH. by apply items_resolve_handle.
Qed.

(** ** What a request does to the tables *)

(** A request leaves the orders as they are, or rewrites the order that it
    names, or adds one order under a fresh id and a free number. *)
Lemma handle_orders r w :
  orders (handle r w) = orders w
  ∨ (∃ data o st,
       r = UpdateOrderStatus data
       ∧ orders w !! orderId data = Some o
       ∧ prisma.enum_column (data_status data) (status o) = inr st
       ∧ orders (handle r w)
         = <[orderId data := updated_order data o st]> (orders w))
  ∨ (∃ env d num,
       r = NewOrder env d
       ∧ (∀ id o, orders w !! id = Some o → number o ≠ num)
       ∧ orders w !! fresh (dom (orders w)) = None
       ∧ orders (handle r w)
         = <[fresh (dom (orders w)) := created_order env d num]> (orders w)).
Proof.
  destruct r as [env d|data]; simpl.
  - destruct (new_order_outcome env d w)
      as [(_ & _ & Hfree & Hid & ->)|(_ & e & ->)]; [|by left].
    right; right. by exists env, d, (next_number env (orders w)).
  - destruct (orders w !! orderId data) as [o|] eqn:Ho.
    2: { left. by apply update_rejected_tables; left. }
    destruct (prisma.enum_column (data_status data) (status o))
      as [e|st] eqn:Hcol.
    { left. apply update_rejected_tables. right. by exists o, e. }
    destruct (update_partial data w o st Ho Hcol) as (Hor & _).
    right; left. by exists data, o, st.
Qed.

(** What becomes of one stored order over one request. *)
Lemma handle_order r w id o :
  orders w !! id = Some o →
  ∃ o', orders (handle r w) !! id = Some o'
      ∧ number o' = number o ∧ customerName o' = customerName o
      ∧ createdAt o' = createdAt o ∧ items o' = items o
      ∧ status o' = default (status o) (supplied_status id r)
      ∧ isPaid o' = default (isPaid o) (supplied_isPaid id r)
      ∧ ∃ rows, statusHistory o' = (statusHistory o ++ rows)%list
              ∧ map history_status rows
                = option_list (supplied_status id r).
Proof.
  intros Ho.
  assert (orders (handle r w) !! id = Some o →
          supplied_status id r = None → supplied_isPaid id r = None →
          ∃ o', orders (handle r w) !! id = Some o'
              ∧ number o' = number o ∧ customerName o' = customerName o
              ∧ createdAt o' = createdAt o ∧ items o' = items o
              ∧ status o' = default (status o) (supplied_status id r)
              ∧ isPaid o' = default (isPaid o) (supplied_isPaid id r)
              ∧ ∃ rows, statusHistory o' = (statusHistory o ++ rows)%list
                      ∧ map history_status rows
                        = option_list (supplied_status id r)) as Hkept.
  { intros Hl -> ->. exists o. split; [done|]. repeat split; try done.
    exists []. by rewrite app_nil_r. }
  destruct r as [env d|data].
  - apply Hkept; [|done|done].
    destruct (handle_orders (NewOrder env d) w)
      as [->|[(data & o0 & st & [=] & _)
             |(env' & d' & num & _ & _ & Hfresh & ->)]]; [done|].
    rewrite lookup_insert_ne; [done|]. intros <-. congruence.
  - destruct (String.eqb_spec (orderId data) id) as [Heq|Hne].
    2: { apply Hkept;
           [|simpl; by rewrite (proj2 (String.eqb_neq _ _) Hne)..].
         destruct (handle_orders (UpdateOrderStatus data) w)
           as [->|[(data' & o0 & st & [= <-] & _ & _ & ->)
                  |(env' & d' & num & [=] & _)]]; [done|].
         by rewrite lookup_insert_ne. }
    subst id. simpl. rewrite String.eqb_refl.
    destruct (prisma.enum_column (data_status data) (status o))
      as [e|st] eqn:Hcol.
    + destruct (update_rejected_tables data w) as [_ ->].
      { right. by exists o, e. }
      unfold prisma.enum_column in Hcol.
      destruct (data_status data) as [s|]; [|done]. simpl.
      destruct (parse_status s); [done|].
      exists o. split; [done|]. repeat split; try done.
      exists []. by rewrite app_nil_r.
    + destruct (update_partial data w o st Ho Hcol) as (-> & _).
      rewrite lookup_insert_eq.
      exists (updated_order data o st). split; [done|].
      unfold prisma.enum_column in Hcol. unfold updated_order, appended_history.
      simpl. destruct (data_status data) as [s|]; simpl.
      * destruct (parse_status s) as [st'|] eqn:Hp; [|done].
        injection Hcol as ->. apply parse_status_name in Hp. subst s.
        repeat split; try done. destruct st; by eexists.
      * injection Hcol as <-. repeat split; try done.
        exists []. by rewrite app_nil_r.
Qed.

Lemma default_last_cons {A} (x y : A) (l : list A) :
  default x (last (y :: l)) = default y (last l).
Proof. rewrite last_cons. by destruct (last l). Qed.

(** What becomes of one stored order over a sequence of requests. *)
Lemma run_order rs : ∀ w id o,
  orders w !! id = Some o →
  ∃ o', orders (run rs w) !! id = Some o'
      ∧ number o' = number o ∧ customerName o' = customerName o
      ∧ createdAt o' = createdAt o ∧ items o' = items o
      ∧ status o' = default (status o) (last (omap (supplied_status id) rs))
      ∧ isPaid o' = default (isPaid o) (last (omap (supplied_isPaid id) rs))
      ∧ ∃ rows, statusHistory o' = (statusHistory o ++ rows)%list
              ∧ map history_status rows = omap (supplied_status id) rs.
Proof.
  induction rs as [|r rs IH]; intros w id o Ho.
  - exists o. split; [done|]. repeat split; try done.
    exists []. by rewrite app_nil_r.
  - rewrite run_cons.
    destruct (handle_order r w id o Ho)
      as (o1 & Ho1 & Hn1 & Hc1 & Ht1 & Hi1 & Hs1 & Hp1 & rows1 & Hh1 & Hm1).
    destruct (IH (handle r w) id o1 Ho1)
      as (o2 & Ho2 & Hn2 & Hc2 & Ht2 & Hi2 & Hs2 & Hp2 & rows2 & Hh2 & Hm2).
    exists o2. split; [done|].
    split; [congruence|]. split; [congruence|].
    split; [congruence|]. split; [congruence|].
    cbn [omap list_omap].
    split; [|split].
    + rewrite Hs2, Hs1.
      destruct (supplied_status id r); simpl; [|done].
      by rewrite default_last_cons.
    + rewrite Hp2, Hp1.
      destruct (supplied_isPaid id r); simpl; [|done].
      by rewrite default_last_cons.
    + exists (rows1 ++ rows2)%list. rewrite Hh2, Hh1, <- app_assoc.
      split; [done|]. rewrite map_app, Hm1, Hm2.
      by destruct (supplied_status id r).
Qed.

Lemma numbers_unique_handle r w :
  numbers_unique w → numbers_unique (handle r w).
Proof.
  intros Hu.
  destruct (handle_orders r w)
    as [Hsame|[(data & o & st & _ & Ho & _ & Hor)
              |(env & d & num & _ & Hfree & Hfresh & Hor)]];
    unfold numbers_unique; rewrite ?Hsame, ?Hor; [done| |].
  - assert (∀ id o', <[orderId data := updated_order data o st]> (orders w)
                       !! id = Some o' →
              ∃ o0, orders w !! id = Some o0 ∧ number o0 = number o') as Hback.
    { intros id o' Hl. apply lookup_insert_Some in Hl as [[<- <-]|[_ Hl]].
      - by exists o.
      - by exists o'. }
    intros id1 id2 o1 o2 H1 H2 Heq.
    destruct (Hback _ _ H1) as (o1' & H1' & Hn1).
    destruct (Hback _ _ H2) as (o2' & H2' & Hn2).
    apply (Hu id1 id2 o1' o2' H1' H2'). congruence.
  - intros id1 id2 o1 o2 H1 H2 Heq.
    apply lookup_insert_Some in H1 as [[<- <-]|[Hne1 H1]];
      apply lookup_insert_Some in H2 as [[<- <-]|[Hne2 H2]].
    + done.
    + simpl in Heq. by destruct (Hfree id2 o2 H2).
    + simpl in Heq. by destruct (Hfree id1 o1 H1).
    + by apply (Hu id1 id2 o1 o2).
Qed.

Lemma history_tracks_status_handle r w :
  history_tracks_status w → history_tracks_status (handle r w).
Proof.
  intros Hinv.
  destruct (handle_orders r w)
    as [Hsame|[(data & o & st & _ & Ho & Hcol & Hor)
              |(env & d & num & _ & Hfree & Hfresh & Hor)]];
    unfold history_tracks_status; rewrite ?Hsame, ?Hor; [done| |].
  - intros id o' Hl. apply lookup_insert_Some in Hl as [[_ <-]|[_ Hl]];
      [|by apply (Hinv id)].
    unfold updated_order, appended_history, prisma.enum_column in *. simpl.
    destruct (data_status data) as [s|].
    + destruct (parse_status s) as [st'|] eqn:Hp; [|done].
      injection Hcol as ->. apply parse_status_name in Hp. subst s.
      destruct st; rewrite map_app; simpl; by rewrite last_snoc.
    + injection Hcol as <-. rewrite app_nil_r. by apply (Hinv (orderId data)).
  - intros id o' Hl. apply lookup_insert_Some in Hl as [[_ <-]|[_ Hl]];
      [done|by apply (Hinv id)].
Qed.

Lemma handle_products r w pid :
  name <$> products (handle r w) !! pid = name <$> products w !! pid.
Proof.
  destruct r as [env d|data]; simpl; [by rewrite new_order_products|].
  destruct (orders w !! orderId data) as [o|] eqn:Ho.
  2: { by destruct (update_rejected_tables data w) as [-> _]; [left|]. }
  destruct (prisma.enum_column (data_status data) (status o))
    as [e|st] eqn:Hcol.
  { destruct (update_rejected_tables data w) as [-> _]; [|done].
    right. by exists o, e. }
  destruct (update_partial data w o st Ho Hcol) as (_ & k & Hnone & Hsome).
  destruct (products w !! pid) as [p|] eqn:Hp.
  - destruct (Hsome pid p Hp) as (p' & -> & Hn & _). simpl. by rewrite Hn.
  - by rewrite (Hnone pid Hp).
Qed.

(** ** Checks on sample values *)

Lemma well_formed_check d num method :
  is_Some (paiement d) →
  prisma.create_refusal (order_create_data d num method) = None →
  well_formed d.
Proof.
  intros Hpay Hcheck.
  apply create_refusal_iff in Hcheck as (Hn & Ht & Hi & Hlines).
  split; [done|]. split; [done|]. split; [done|]. by split.
Qed.

Lemma stock_in_range_check its m :
  map_Forall (λ pid p, int4_min ≤ stock p - ordered_abs its pid
                       ∧ stock p + ordered_abs its pid ≤ int4_max) m →
  stock_in_range its m.
Proof. done. Qed.

Ltac sample_well_formed :=
  apply (well_formed_check _ EmptyString CASH); [by eexists|by vm_compute].

Ltac sample_stock_in_range :=
  apply stock_in_range_check; apply (bool_decide_unpack _); by vm_compute.

Ltac sample_resolve :=
  let x := fresh "x" in
  let Hx := fresh "Hx" in
  intros x Hx; vm_compute in Hx;
  repeat (apply elem_of_cons in Hx as [->|Hx];
          [apply (bool_decide_unpack _); by vm_compute|]);
  by apply elem_of_nil in Hx.

(** ** The console of [update_order_status] *)

(** The lines of one call: the request, the lines of the stock function
    that ran with one line for each row that it applied, and the line of
    the end or of the error.  Without applied row the product table is as
    it was. *)
Lemma update_console data w :
  ∃ start lines fin,
    console (update_order_status data w)
    = (console w ++ UpdateReceived data :: start ++ lines ++ [fin])%list
    ∧ (fin = OrderSaved (orderId data) ∨ ∃ e, fin = UpdateFailed e)
    ∧ (start = [] ∧ lines = []
       ∨ start = [StockUpdateStarted (orderId data)]
         ∧ (∃ rows, lines = map dec_line rows)
       ∨ start = [StockRestoreStarted (orderId data)]
         ∧ (∃ rows, lines = map res_line rows))
    ∧ (lines = [] → products (update_order_status data w) = products w).
Proof.
  assert (∀ e, update_order_status_try data w
               = (mkWorld (products w) (orders w)
                    (console w ++ [UpdateReceived data]) (emitted w), inl e) →
          ∃ start lines fin,
            console (update_order_status data w)
            = (console w ++ UpdateReceived data :: start ++ lines ++ [fin])%list
            ∧ (fin = OrderSaved (orderId data) ∨ ∃ e, fin = UpdateFailed e)
            ∧ (start = [] ∧ lines = []
               ∨ start = [StockUpdateStarted (orderId data)]
                 ∧ (∃ rows, lines = map dec_line rows)
               ∨ start = [StockRestoreStarted (orderId data)]
                 ∧ (∃ rows, lines = map res_line rows))
            ∧ (lines = [] → products (update_order_status data w) = products w))
    as Hrejected.
  { intros e Htry. exists [], [], (UpdateFailed e).
    rewrite update_order_status_eq, Htry. simpl.
    split; [by rewrite <- app_assoc|]. split; [right; by eexists|].
    split; [by left|done]. }
  destruct (orders w !! orderId data) as [o|] eqn:Ho.
  2: { apply (Hrejected _ (update_try_not_found data w Ho)). }
  destruct (prisma.enum_column (data_status data) (status o)) as [e|st] eqn:Hcol.
  { apply (Hrejected _ (update_try_refused data w o e Ho Hcol)). }
  destruct (update_accepted data w o st Ho Hcol)
    as (m' & lines & r & Htry & Hcases).
  destruct (update_result_world _ _ _ _ _ _ _ Htry) as (Hp & _ & Hc & _).
  rewrite Hp, Hc.
  set (fin := match r with
              | inl e => UpdateFailed e
              | inr _ => OrderSaved (orderId data)
              end).
  assert (fin = OrderSaved (orderId data) ∨ ∃ e, fin = UpdateFailed e) as Hfin.
  { subst fin. destruct r as [e|[]]; [right; by eexists|by left]. }
  assert (∀ start delta avail line,
            adjusted (items o) start delta avail line (products w) m' lines r →
            ∃ rows, lines = start :: map line rows
                  ∧ (rows = [] → m' = products w)) as Hadjusted.
  { intros start delta avail line
      [(-> & -> & _)|(rows & k & Hfst & _ & -> & _ & Hnone & Happ)].
    - by exists [].
    - exists (take k rows). split; [done|]. intros Hk. rewrite Hk in Happ.
      apply map_eq. intros pid.
      destruct (products w !! pid) as [p|] eqn:Hpid.
      + destruct (Happ pid p Hpid) as (p' & Hl & _ & _ & Hun & _).
        rewrite Hl, Hun; [done|]. apply not_elem_of_nil.
      + by apply Hnone. }
  destruct Hcases as [(_ & _ & -> & -> & _)|[(_ & _ & Hadj)|(_ & _ & Hadj)]].
  - exists [], [], fin. split; [done|]. split; [done|]. split; [by left|done].
  - destruct (Hadjusted _ _ _ _ Hadj) as (rows & -> & Hsame).
    exists [StockUpdateStarted (orderId data)], (map dec_line rows), fin.
    split; [done|]. split; [done|]. split; [right; left; by eauto|].
    intros Hnil. apply Hsame. by destruct rows.
  - destruct (Hadjusted _ _ _ _ Hadj) as (rows & -> & Hsame).
    exists [StockRestoreStarted (orderId data)], (map res_line rows), fin.
    split; [done|]. split; [done|]. split; [right; right; by eauto|].
    intros Hnil. apply Hsame. by destruct rows.
Qed.

(** The start line of a stock function is printed exactly when its two
    guards hold. *)
Lemma update_start_lines data w o st :
  orders w !! orderId data = Some o →
  prisma.enum_column (data_status data) (status o) = inr st →
  let o' := updated_order data o st in
  let dec := decrement_trigger data (status o) o' && paid_and_preparing o' in
  let res := restore_trigger data (status o) (isPaid o)
             && shouldRestoreStock o' (status o) in
  ∃ lines,
    console (update_order_status data w) = (console w ++ lines)%list
    ∧ (StockUpdateStarted (orderId data) ∈ lines ↔ dec = true)
    ∧ (StockRestoreStarted (orderId data) ∈ lines ↔ res = true)
    ∧ (dec = false → ∀ l, l ∈ lines → ¬ is_decrement l)
    ∧ (res = false → ∀ l, l ∈ lines → ¬ is_restore l).
Proof.
  intros Ho Hcol o' dec res.
  destruct (update_accepted data w o st Ho Hcol)
    as (m' & lines & r & Htry & Hcases).
  destruct (update_result_world _ _ _ _ _ _ _ Htry) as (_ & _ & Hc & _).
  fold o' dec res in Hcases. rewrite Hc. eexists. split; [reflexivity|].
  set (fin := match r with
              | inl e => UpdateFailed e
              | inr _ => OrderSaved (orderId data)
              end).
  assert (∀ l, l ∈ [fin] → l ≠ StockUpdateStarted (orderId data)
                           ∧ l ≠ StockRestoreStarted (orderId data)
                           ∧ ¬ is_decrement l ∧ ¬ is_restore l) as Hfin.
  { intros l Hl. apply list_elem_of_singleton in Hl as ->.
    subst fin.
    destruct r as [e|[]]; (split; [done|]); (split; [done|]);
      split; by intros []. }
  assert (∀ start delta avail line,
            adjusted (items o) start delta avail line (products w) m' lines r →
            ∃ rows, lines = start :: map line rows) as Hadjusted.
  { intros start delta avail line
      [(_ & -> & _)|(rows & k & _ & _ & -> & _)]; [by exists []|by eexists]. }
  destruct Hcases as [(-> & -> & _ & -> & _)|[(-> & -> & Hadj)|(-> & -> & Hadj)]].
  - repeat split; try done.
    + intros Hin. apply elem_of_cons in Hin as [?|Hin]; [done|].
      by destruct (Hfin _ Hin) as (? & _).
    + intros Hin. apply elem_of_cons in Hin as [?|Hin]; [done|].
      by destruct (Hfin _ Hin) as (_ & ? & _).
    + intros _ l Hl. apply elem_of_cons in Hl as [->|Hl]; [by intros []|].
      by destruct (Hfin _ Hl) as (_ & _ & ? & _).
    + intros _ l Hl. apply elem_of_cons in Hl as [->|Hl]; [by intros []|].
      by destruct (Hfin _ Hl) as (_ & _ & _ & ?).
  - destruct (Hadjusted _ _ _ _ Hadj) as (rows & ->).
    repeat split; try done.
    + intros _. right. left.
    + intros Hin. apply elem_of_cons in Hin as [?|Hin]; [done|].
      apply elem_of_app in Hin as [Hin|Hin];
        [|by destruct (Hfin _ Hin) as (_ & ? & _)].
      apply elem_of_cons in Hin as [?|Hin]; [done|].
      by apply list_elem_of_fmap in Hin as (row & ? & _).
    + intros _ l Hl. apply elem_of_cons in Hl as [->|Hl]; [by intros []|].
      apply elem_of_app in Hl as [Hl|Hl];
        [|by destruct (Hfin _ Hl) as (_ & _ & _ & ?)].
      apply elem_of_cons in Hl as [->|Hl]; [by intros []|].
      apply list_elem_of_fmap in Hl as (row & -> & _). by intros [].
  - destruct (Hadjusted _ _ _ _ Hadj) as (rows & ->).
    repeat split; try done.
    + intros Hin. apply elem_of_cons in Hin as [?|Hin]; [done|].
      apply elem_of_app in Hin as [Hin|Hin];
        [|by destruct (Hfin _ Hin) as (? & _)].
      apply elem_of_cons in Hin as [?|Hin]; [done|].
      by apply list_elem_of_fmap in Hin as (row & ? & _).
    + intros _. right. left.
    + intros _ l Hl. apply elem_of_cons in Hl as [->|Hl]; [by intros []|].
      apply elem_of_app in Hl as [Hl|Hl];
        [|by destruct (Hfin _ Hl) as (_ & _ & ? & _)].
      apply elem_of_cons in Hl as [->|Hl]; [by intros []|].
      apply list_elem_of_fmap in Hl as (row & -> & _). by intros [].
Qed.

(** ** Taking the stock and giving it back *)

(** An order is put in preparation and paid, then cancelled, and no stock
    leaves its range on the way: the stock is taken, then given back. *)
Lemma prepare_cancel id n1 paid n2 w o :
  orders w !! id = Some o →
  (∀ it, it ∈ items o → is_Some (products w !! productId it)) →
  stock_in_range (items o) (products w) →
  let w1 := update_order_status
              (mkUpdateData id (Some "PREPARING") (Some true) n1) w in
  let w2 := update_order_status
              (mkUpdateData id (Some "CANCELLED") paid n2) w1 in
  ∀ pid p, products w !! pid = Some p →
    ∃ p1 p2, products w1 !! pid = Some p1
        ∧ stock p1 = stock p - ordered_qty (items o) pid
        ∧ products w2 !! pid = Some p2
        ∧ name p2 = name p
        ∧ stock p2 = stock p1 + ordered_qty (items o) pid
        ∧ (pid ∈ map productId (items o) → isAvailable p2 = true)
        ∧ (pid ∉ map productId (items o) → p2 = p).
Proof.
  intros Ho Hfk Hrange w1 w2 pid p Hpid.
  set (d1 := mkUpdateData id (Some "PREPARING") (Some true) n1) in *.
  set (d2 := mkUpdateData id (Some "CANCELLED") paid n2) in *.
  destruct (update_outcome d1 w o PREPARING Ho eq_refl Hfk)
    as (_ & Hor1 & _ & Hnone1 & Hsome1).
  { intros _. by apply stock_in_range_no_overflow; [right|]. }
  { intros _. by apply stock_in_range_no_overflow; [left|]. }
  fold w1 in Hor1, Hnone1, Hsome1.
  set (o1 := updated_order d1 o PREPARING) in *.
  assert (orders w1 !! orderId d2 = Some o1) as Ho1.
  { rewrite Hor1. apply lookup_insert_eq. }
  assert (∀ it, it ∈ items o1 → is_Some (products w1 !! productId it)) as Hfk1.
  { intros it Hit. destruct (Hfk it Hit) as [q Hq].
    destruct (Hsome1 _ q Hq) as (q' & -> & _). by eexists. }
  assert (restore_trigger d2 (status o1) (isPaid o1)
          && shouldRestoreStock (updated_order d2 o1 CANCELLED) (status o1)
          = true) as Hres by (by destruct paid as [[]|]).
  assert (decrement_trigger d2 (status o1) (updated_order d2 o1 CANCELLED)
          && paid_and_preparing (updated_order d2 o1 CANCELLED)
          = false) as Hdec by (by destruct paid as [[]|]).
  assert (decrement_trigger d1 (status o) o1 && paid_and_preparing o1
          = true) as Hdec1 by done.
  destruct (update_outcome d2 w1 o1 CANCELLED Ho1 eq_refl Hfk1)
    as (_ & _ & _ & _ & Hsome2).
  { rewrite Hdec. discriminate. }
  { intros _ k pid' p1 Hp1.
    destruct (products w !! pid') as [p0|] eqn:Hp0.
    2: { rewrite (Hnone1 pid' Hp0) in Hp1. discriminate. }
    destruct (Hsome1 pid' p0 Hp0) as (p1' & Hl & _ & Hs & _).
    rewrite Hl in Hp1. injection Hp1 as <-. rewrite Hs, Hdec1.
    destruct (Hrange pid' p0 Hp0) as [Hlo Hhi].
    destruct (ordered_qty_take_abs (items o) pid' k) as [_ Habs].
    change (items o1) with (items o). unfold int4. lia. }
  fold w2 in Hsome2.
  destruct (Hsome1 pid p Hpid) as (p1 & Hl1 & Hn1 & Hs1 & Hun1 & _).
  destruct (Hsome2 pid p1 Hl1) as (p2 & Hl2 & Hn2 & Hs2 & Hun2 & Hav2 & _).
  rewrite Hdec1 in Hs1. rewrite Hdec, Hres in Hs2. specialize (Hav2 Hres).
  change (items o1) with (items o) in *.
  exists p1, p2. split; [done|]. split; [lia|]. split; [done|].
  split; [congruence|]. split; [done|]. split; [done|].
  intros Hnot. rewrite (Hun2 Hnot). by apply Hun1.
Qed.

(** * The claims *)

(** ** C1: the stock of an order is taken at most once *)

(** C1. The claim is that no sequence of [update_order_status] calls takes
    the stock of an order twice.  On an order that is already in preparation
    and paid, a call that supplies [status = "PREPARING"] again, or
    [isPaid = true] again, passes the condition of the listener and the guard
    of [updateProductStock], and the stock is taken a second time: 10, then
    7 after the first transition, then 4. *)
Theorem repeated_call_takes_stock_again :
  stock <$> products Sample.submitted !! "A" = Some 10
  ∧ stock <$> products Sample.preparing_paid !! "A" = Some 7
  ∧ stock <$> products (update_order_status
                          (mkUpdateData "0" (Some "PREPARING") None None)
                          Sample.preparing_paid) !! "A" = Some 4
  ∧ stock <$> products (update_order_status
                          (mkUpdateData "0" None (Some true) None)
                          Sample.preparing_paid) !! "A" = Some 4.
Proof. by vm_compute. Qed.

(** ** C2: when the stock is taken *)

(** C2, as stated, fails: an order in preparation and not paid receives
    [{ status: "READY", isPaid: true }].  The previous status is PREPARING
    and the call makes [isPaid] true, yet no stock is taken, because the
    updated order is no longer in preparation: the product table is as it
    was and the call prints its two own lines only. *)
Lemma paid_while_leaving_preparation_takes_no_stock :
  let w := Sample.preparing_unpaid in
  let d := mkUpdateData "0" (Some "READY") (Some true) None in
  status <$> orders w !! "0" = Some PREPARING
  ∧ isPaid <$> orders w !! "0" = Some false
  ∧ (λ o, ordered_qty (items o) "A") <$> orders w !! "0" = Some 3
  ∧ isPaid <$> orders (update_order_status d w) !! "0" = Some true
  ∧ products (update_order_status d w) = products w
  ∧ console (update_order_status d w)
    = (console w ++ [UpdateReceived d; OrderSaved "0"])%list.
Proof. by vm_compute. Qed.

(** C2, amended.  The order of the call exists, the store accepts the call
    ([st] is the status of the updated order), the items have their products
    and the order is not already both in preparation and paid.  The stock
    function [updateProductStock] starts exactly when the condition of the
    claim holds and the updated order is in preparation: either the call
    supplied [status = "PREPARING"] and the updated order is paid, or the
    previous status was PREPARING, the call supplied [isPaid = true] and did
    not move the order out of preparation.  This is exactly when the call
    brings the order to PREPARING and paid.  Then, when no stock leaves the
    range of its column, the stock of every product drops by the total
    quantity of the items of the order that reference it.  Otherwise the
    call prints no decrement and, on an order without negative quantity,
    lowers no stock. *)
Theorem decrement_applied_exactly_when data w o st :
  orders w !! orderId data = Some o →
  (data_status data = None ∧ st = status o
   ∨ data_status data = Some (status_name st)) →
  (∀ it, it ∈ items o → is_Some (products w !! productId it)) →
  ¬ (status o = PREPARING ∧ isPaid o = true) →
  let w' := update_order_status data w in
  let paid' := default (isPaid o) (data_isPaid data) in
  let fires :=
    st = PREPARING ∧ paid' = true
    ∧ (data_status data = Some "PREPARING"
       ∨ (status o = PREPARING ∧ data_isPaid data = Some true)) in
  (fires ↔ st = PREPARING ∧ paid' = true)
  ∧ (∃ lines, console w' = (console w ++ lines)%list
       ∧ (StockUpdateStarted (orderId data) ∈ lines ↔ fires)
       ∧ (¬ fires → ∀ l, l ∈ lines → ¬ is_decrement l))
  ∧ (fires → stock_in_range (items o) (products w) →
     ∀ pid p, products w !! pid = Some p →
       ∃ p', products w' !! pid = Some p'
           ∧ stock p' = stock p - ordered_qty (items o) pid)
  ∧ (¬ fires → (∀ it, it ∈ items o → 0 ≤ quantity it) →
     ∀ pid p, products w !! pid = Some p →
       ∃ p', products w' !! pid = Some p' ∧ stock p ≤ stock p').
Proof.
  intros Ho Hst Hfk Hedge w' paid' fires.
  split.
  { subst fires paid'. split; [tauto|]. intros [-> Hpaid].
    split; [done|]. split; [done|].
    destruct Hst as [[Hd Hs] | Hd]; [|by left].
    right. split; [done|].
    destruct (data_isPaid data) as [[]|]; simpl in Hpaid;
      [done|done|]. exfalso. by apply Hedge. }
  pose proof (accepted_column data o st Hst) as Hcol.
  pose proof (decrement_guard_iff data o st Hst) as Hfires.
  fold paid' fires in Hfires.
  split; [|split].
  - destruct (update_start_lines data w o st Ho Hcol)
      as (lines & Hc & Hstart & _ & Hnodec & _).
    exists lines. split; [done|]. split; [by rewrite Hstart|].
    intros Hn. apply Hnodec. apply not_true_is_false. by rewrite Hfires.
  - intros Hf Hrange pid p Hpid. apply Hfires in Hf.
    destruct (update_outcome data w o st Ho Hcol Hfk)
      as (_ & _ & _ & _ & Hsome).
    { intros _. by apply stock_in_range_no_overflow; [right|]. }
    { intros _. by apply stock_in_range_no_overflow; [left|]. }
    destruct (Hsome pid p Hpid) as (p' & Hl & _ & Hs & _).
    exists p'. split; [done|]. rewrite Hs, Hf. lia.
  - intros Hn Hq pid p Hpid.
    assert (decrement_trigger data (status o) (updated_order data o st)
            && paid_and_preparing (updated_order data o st) = false) as Hdec.
    { apply not_true_is_false. by rewrite Hfires. }
    destruct (update_partial data w o st Ho Hcol) as (_ & k & _ & Hsome).
    destruct (Hsome pid p Hpid) as (p' & Hl & _ & Hs & _).
    exists p'. split; [done|]. rewrite Hs, Hdec.
    pose proof (ordered_qty_take_le (items o) pid k Hq).
    destruct (restore_trigger _ _ _ && _); lia.
Qed.

Lemma decrement_applied_exactly_when_witness :
  ∃ p', products (update_order_status Sample.to_preparing_paid
                    Sample.submitted) !! "A" = Some p'
      ∧ stock p' = 10 - 3.
Proof.
  destruct (decrement_applied_exactly_when Sample.to_preparing_paid
              Sample.submitted
              (Sample.order_of_cart NEW false Sample.created) PREPARING)
    as (_ & _ & Hstock & _).
  - by vm_compute.
  - by right.
  - sample_resolve.
  - by intros [? _].
  - apply (Hstock (conj eq_refl (conj eq_refl (or_introl eq_refl))))
      with (p := mkProduct "Cafe" 10 true); [sample_stock_in_range|].
    by vm_compute.
Defined.

(** ** C3: when the stock is given back *)

(** C3, as stated, fails: an order in preparation and paid, whose stock has
    been taken, receives [{ status: "READY", isPaid: false }].  The previous
    status is PREPARING, the order was paid and the call sets [isPaid] to
    false, yet no stock is given back, because the updated order is neither
    cancelled nor still in preparation. *)
Lemma unpaid_while_leaving_preparation_restores_no_stock :
  let w := Sample.preparing_paid in
  let d := mkUpdateData "0" (Some "READY") (Some false) None in
  status <$> orders w !! "0" = Some PREPARING
  ∧ isPaid <$> orders w !! "0" = Some true
  ∧ (λ o, ordered_qty (items o) "A") <$> orders w !! "0" = Some 3
  ∧ isPaid <$> orders (update_order_status d w) !! "0" = Some false
  ∧ products (update_order_status d w) = products w
  ∧ console (update_order_status d w)
    = (console w ++ [UpdateReceived d; OrderSaved "0"])%list.
Proof. by vm_compute. Qed.

(** C3, amended.  For a call on an existing order that the store accepts
    ([st] is the status of the updated order) and whose items have their
    products, [restoreProductStock] starts exactly when the previous status
    was PREPARING and either the call supplied [status = "CANCELLED"], or the
    order was paid, the call supplied [isPaid = false] and the updated order
    is still in preparation.  Then, when no stock leaves the range of its
    column, the stock of every product rises by the total quantity of the
    items of the order that reference it, and every product referenced by an
    item is made available, whatever its stock. *)
Theorem restore_applied_exactly_when data w o st :
  orders w !! orderId data = Some o →
  (data_status data = None ∧ st = status o
   ∨ data_status data = Some (status_name st)) →
  (∀ it, it ∈ items o → is_Some (products w !! productId it)) →
  let w' := update_order_status data w in
  let fires :=
    status o = PREPARING
    ∧ (data_status data = Some "CANCELLED"
       ∨ (isPaid o = true ∧ data_isPaid data = Some false
          ∧ st = PREPARING)) in
  (∃ lines, console w' = (console w ++ lines)%list
     ∧ (StockRestoreStarted (orderId data) ∈ lines ↔ fires)
     ∧ (¬ fires → ∀ l, l ∈ lines → ¬ is_restore l))
  ∧ (fires → stock_in_range (items o) (products w) →
     ∀ pid p, products w !! pid = Some p →
       ∃ p', products w' !! pid = Some p'
           ∧ stock p' = stock p + ordered_qty (items o) pid
           ∧ (pid ∈ map productId (items o) → isAvailable p' = true)).
Proof.
  intros Ho Hst Hfk w' fires.
  pose proof (accepted_column data o st Hst) as Hcol.
  pose proof (restore_guard_iff data o st Hst) as Hfires.
  fold fires in Hfires.
  split.
  - destruct (update_start_lines data w o st Ho Hcol)
      as (lines & Hc & _ & Hstart & _ & Hnores).
    exists lines. split; [done|]. split; [by rewrite Hstart|].
    intros Hn. apply Hnores. apply not_true_is_false. by rewrite Hfires.
  - intros Hf Hrange pid p Hpid. apply Hfires in Hf.
    assert (decrement_trigger data (status o) (updated_order data o st)
            && paid_and_preparing (updated_order data o st) = false) as Hdec.
    { pose proof (guards_exclusive (updated_order data o st) (status o)) as Hex.
      apply andb_true_iff in Hf as [_ Hf]. rewrite Hf, andb_true_r in Hex.
      by rewrite Hex, andb_false_r. }
    destruct (update_outcome data w o st Ho Hcol Hfk)
      as (_ & _ & _ & _ & Hsome).
    { intros _. by apply stock_in_range_no_overflow; [right|]. }
    { intros _. by apply stock_in_range_no_overflow; [left|]. }
    destruct (Hsome pid p Hpid) as (p' & Hl & _ & Hs & _ & Hav & _).
    exists p'. split; [done|]. rewrite Hs, Hdec, Hf. split; [done|].
    by apply Hav.
Qed.

Lemma restore_applied_exactly_when_witness :
  ∃ p', products (update_order_status
                    (mkUpdateData "0" (Some "CANCELLED") None None)
                    Sample.preparing_paid) !! "B" = Some p'
      ∧ stock p' = 0 + 1
      ∧ isAvailable p' = true.
Proof.
  destruct (restore_applied_exactly_when
              (mkUpdateData "0" (Some "CANCELLED") None None)
              Sample.preparing_paid
              (Sample.order_of_cart PREPARING true Sample.created_prepared)
              CANCELLED)
    as (_ & Hstock).
  - by vm_compute.
  - by right.
  - sample_resolve.
  - destruct (Hstock (conj eq_refl (or_introl eq_refl)))
      with (pid := "B") (p := mkProduct "Tarte" 0 false)
      as (p' & Hl & Hs & Hav);
      [sample_stock_in_range|by vm_compute|].
    exists p'. split; [exact Hl|]. split; [exact Hs|].
    apply Hav. vm_compute. right. left.
Defined.

(** ** C4: one stock effect per call *)

(** C4.  Whatever the call and the state, the stock lines that one call
    prints are never of both kinds: it does not decrement and restore in the
    same call.  Every change of stock prints its line, so a call without
    stock line leaves the product table as it was. *)
Theorem inventory_effects_exclusive data w :
  ∃ lines, console (update_order_status data w) = (console w ++ lines)%list
    ∧ ((∀ l, l ∈ lines → ¬ is_decrement l)
       ∨ (∀ l, l ∈ lines → ¬ is_restore l))
    ∧ ((∀ l, l ∈ lines → ¬ is_decrement l ∧ ¬ is_restore l) →
       products (update_order_status data w) = products w).
Proof.
  destruct (update_console data w)
    as (start & lines & fin & Hc & Hfin & Hkind & Hsame).
  exists (UpdateReceived data :: start ++ lines ++ [fin]).
  split; [done|].
  assert (∀ l, l ∈ UpdateReceived data :: start ++ lines ++ [fin] →
               l ∈ lines ∨ (¬ is_decrement l ∧ ¬ is_restore l)) as Hother.
  { intros l Hl. apply elem_of_cons in Hl as [->|Hl]; [right; by split; intros []|].
    apply elem_of_app in Hl as [Hl|Hl].
    - right. destruct Hkind as [[-> _]|[[-> _]|[-> _]]].
      + by apply elem_of_nil in Hl.
      + apply list_elem_of_singleton in Hl as ->. by split; intros [].
      + apply list_elem_of_singleton in Hl as ->. by split; intros [].
    - apply elem_of_app in Hl as [Hl|Hl]; [by left|].
      right. apply list_elem_of_singleton in Hl as ->.
      destruct Hfin as [->|[e ->]]; by split; intros []. }
  split.
  - destruct Hkind as [[_ ->]|[[_ [rows ->]]|[_ [rows ->]]]].
    + left. intros l Hl. destruct (Hother l Hl) as [Hin|[? _]]; [|done].
      by apply elem_of_nil in Hin.
    + right. intros l Hl. destruct (Hother l Hl) as [Hin|[_ ?]]; [|done].
      apply list_elem_of_fmap in Hin as (row & -> & _). by intros [].
    + left. intros l Hl. destruct (Hother l Hl) as [Hin|[? _]]; [|done].
      apply list_elem_of_fmap in Hin as (row & -> & _). by intros [].
  - intros Hnone. apply Hsame.
    destruct Hkind as [[_ ->]|[[_ [rows ->]]|[_ [rows ->]]]]; [done| |].
    + destruct rows as [|row rows]; [done|].
      destruct (Hnone (dec_line row)) as [Hd _]; [|by destruct Hd].
      right. apply elem_of_app. right. apply elem_of_app. left. left.
    + destruct rows as [|row rows]; [done|].
      destruct (Hnone (res_line row)) as [_ Hr]; [|by destruct Hr].
      right. apply elem_of_app. right. apply elem_of_app. left. left.
Qed.

(** ** C5: the sign of the stock *)

(** C5, as stated, fails: from a catalogue whose stocks are 10 and 1, an
    order of three tartes is submitted, put in preparation and paid; the
    stock of the tarte is then 1 - 3. *)
Lemma stock_below_zero :
  ¬ (∀ (w : World) (rs : list Request),
       map_Forall (λ _ p, 0 ≤ stock p) (products w) →
       map_Forall (λ _ p, 0 ≤ stock p) (products (run rs w))).
Proof.
  intros Hclaim.
  pose proof (Hclaim Sample.catalogue
    [NewOrder Sample.morning
       (mkOrderData (Some "Zoe") (Some "cb") (Some 12%float)
          [mkProductItem "B" "Tarte" 4%float (Some 3)] None);
     UpdateOrderStatus Sample.to_preparing_paid]) as H.
  assert (map_Forall (λ _ p, 0 ≤ stock p) (products Sample.catalogue)) as H0.
  { apply (bool_decide_unpack _). by vm_compute. }
  specialize (H H0 "B" (mkProduct "Tarte" (-2) false)).
  simpl in H. assert (0 ≤ -2) as Hneg; [|lia].
  apply H. by vm_compute.
Qed.

(** C5, amended.  [new_order] changes no stock.  Over an
    [update_order_status] call on an order whose quantities are not negative,
    the stocks stay non-negative provided every product holds at least the
    total quantity that the items of the order ask of it: the code checks
    nothing, the decrement subtracts. *)
Theorem stock_nonneg_when_sufficient :
  (∀ env d w, products (new_order env d w) = products w)
  ∧ (∀ data w o,
       orders w !! orderId data = Some o →
       (∀ it, it ∈ items o → 0 ≤ quantity it) →
       map_Forall (λ pid p, ordered_qty (items o) pid ≤ stock p) (products w) →
       map_Forall (λ _ p, 0 ≤ stock p) (products (update_order_status data w))).
Proof.
  split; [apply new_order_products|].
  intros data w o Ho Hq Hsuff.
  assert (map_Forall (λ _ p, 0 ≤ stock p) (products w)) as Hnonneg.
  { intros pid p Hp. specialize (Hsuff pid p Hp). simpl in Hsuff.
    pose proof (ordered_qty_nonneg (items o) pid Hq). lia. }
  destruct (prisma.enum_column (data_status data) (status o)) as [e|st] eqn:Hcol.
  { destruct (update_rejected_tables data w) as [-> _]; [|done].
    right. by exists o, e. }
  destruct (update_partial data w o st Ho Hcol) as (_ & k & Hnone & Hsome).
  intros pid p' Hp'.
  destruct (products w !! pid) as [p|] eqn:Hpid.
  - destruct (Hsome pid p Hpid) as (p'' & Hl & _ & Hs & _).
    rewrite Hl in Hp'. injection Hp' as ->. simpl. rewrite Hs.
    specialize (Hsuff pid p Hpid). simpl in Hsuff.
    pose proof (ordered_qty_take_le (items o) pid k Hq).
    destruct (decrement_trigger _ _ _ && _); [lia|].
    destruct (restore_trigger _ _ _ && _); lia.
  - rewrite (Hnone pid Hpid) in Hp'. discriminate.
Qed.

Lemma stock_nonneg_when_sufficient_witness :
  map_Forall (λ _ p, 0 ≤ stock p)
    (products (update_order_status Sample.to_preparing_paid Sample.submitted)).
Proof.
  apply (proj2 stock_nonneg_when_sufficient Sample.to_preparing_paid
           Sample.submitted (Sample.order_of_cart NEW false Sample.created)).
  - by vm_compute.
  - intros it Hit. vm_compute in Hit.
    apply elem_of_cons in Hit as [->|Hit]; [by vm_compute|].
    apply elem_of_cons in Hit as [->|Hit]; [by vm_compute|].
    by apply elem_of_nil in Hit.
  - apply (bool_decide_unpack _). by vm_compute.
Defined.

(** ** C6: no transition is refused *)

(** C6, as stated, fails: an order that is COMPLETED receives
    [{ status: "NEW", isPaid: false }]; the call is applied, the order is NEW
    and unpaid again, and no [update_error] is sent. *)
Lemma completed_order_reopened :
  let w := Sample.completed in
  let d := mkUpdateData "0" (Some "NEW") (Some false) None in
  status <$> orders w !! "0" = Some COMPLETED
  ∧ isPaid <$> orders w !! "0" = Some true
  ∧ status <$> orders (update_order_status d w) !! "0" = Some NEW
  ∧ isPaid <$> orders (update_order_status d w) !! "0" = Some false
  ∧ emitted (update_order_status d w)
    = (emitted w ++ [order_updated "0"; order_status_changed "0" NEW false])%list.
Proof. by vm_compute. Qed.

(** C6, amended.  The listener checks no transition.  On an existing order,
    whatever its status and whatever the status asked for among the five of
    the enum, the row is written: the status supplied, or the old one when
    none is supplied, and the [isPaid] supplied, or the old one.  The only
    call refused is one whose status is not a member of the enum, which the
    store rejects and which changes nothing. *)
Theorem any_transition_is_applied data w o :
  orders w !! orderId data = Some o →
  let w' := update_order_status data w in
  (∀ st, (data_status data = None ∧ st = status o
          ∨ data_status data = Some (status_name st)) →
     ∃ o', orders w' !! orderId data = Some o'
         ∧ status o' = st
         ∧ isPaid o' = default (isPaid o) (data_isPaid data))
  ∧ (∀ s, data_status data = Some s → parse_status s = None →
       orders w' = orders w ∧ products w' = products w
       ∧ emitted w' = (emitted w ++ [update_error
                         (PersistenceError (InvalidEnumValue s))])%list).
Proof.
  intros Ho w'. split.
  - intros st Hst.
    pose proof (accepted_column data o st Hst) as Hcol.
    destruct (update_partial data w o st Ho Hcol) as (Hor & _).
    exists (updated_order data o st). fold w' in Hor. rewrite Hor.
    split; [apply lookup_insert_eq|done].
  - intros s Hs Hp. subst w'. rewrite update_order_status_eq.
    rewrite (update_try_refused data w o
               (PersistenceError (InvalidEnumValue s)) Ho); [done|].
    unfold prisma.enum_column. by rewrite Hs, Hp.
Qed.

Lemma any_transition_is_applied_witness :
  ∃ o', orders (update_order_status
                  (mkUpdateData "0" (Some "PREPARING") None None)
                  Sample.completed) !! "0" = Some o'
      ∧ status o' = PREPARING.
Proof.
  destruct (any_transition_is_applied
              (mkUpdateData "0" (Some "PREPARING") None None) Sample.completed
              (Sample.order_of_cart COMPLETED true
                 [mkStatusHistory NEW (Some "Commande créée");
                  mkStatusHistory PREPARING
                    (Some "Statut modifié de NEW à PREPARING");
                  mkStatusHistory READY
                    (Some "Statut modifié de PREPARING à READY");
                  mkStatusHistory COMPLETED
                    (Some "Statut modifié de READY à COMPLETED")]))
    as [Happlied _].
  - by vm_compute.
  - destruct (Happlied PREPARING) as (o' & Hl & Hs & _); [by right|].
    exists o'. split; [exact Hl|exact Hs].
Defined.

(** ** C7: a submission is written whole or not at all *)

(** C7.  The claim is that every valid cart whose lines all name a product
    is stored.  The cart of [Sample.cart] is well formed and its two lines
    name products of the catalogue, yet late in the evening of a day on
    which two orders were taken it is refused and nothing is stored: the
    generator gives the number of the first order of the day again (the
    defect of C8) and the [@unique] of [number] refuses the create.  The
    same cart with a word of instructions is refused as well, on an empty
    order table: [new_order] passes [instructions] to the create, and
    [Order] has no such column. *)
Theorem resolvable_cart_is_refused :
  let w := Sample.two_orders in
  let env := Sample.late_evening in
  let with_instructions :=
    mkOrderData (data_nom Sample.cart) (paiement Sample.cart)
      (total Sample.cart) (panier Sample.cart) (Some "sans sucre") in
  well_formed Sample.cart
  ∧ (∀ line, line ∈ panier Sample.cart → is_Some (products w !! item_id line))
  ∧ generateOrderNumber env w = (w, inr "20250307-001")
  ∧ number <$> orders w !! "0" = Some "20250307-001"
  ∧ orders (new_order env Sample.cart w) = orders w
  ∧ emitted (new_order env Sample.cart w)
    = (emitted w
         ++ [order_error (PersistenceError (UniqueConstraint "number"))])%list
  ∧ orders (new_order Sample.morning with_instructions Sample.catalogue) = ∅
  ∧ emitted (new_order Sample.morning with_instructions Sample.catalogue)
    = [order_error (PersistenceError (UnknownArgument "instructions"))].
Proof.
  split; [sample_well_formed|]. split; [sample_resolve|]. by vm_compute.
Qed.

(** ** C8: the order number *)

(** C8.  The claim is that the date of the number and the day whose orders
    are counted are the same calendar day.  The code prints the UTC date
    ([toISOString]) and counts the orders of the local day ([setHours]).  On
    a server one hour east of UTC, at 23:30 UTC of 2025-03-07 (00:30 of
    2025-03-08, local time), with two orders taken on the 7th and none yet
    on the 8th, the number is 20250307-001: neither 20250308-001 nor
    20250307-003, and the number of the first order of the 7th, so that the
    submission is refused by the [@unique] of [number]. *)
Theorem order_number_mixes_utc_and_local_day :
  let w := Sample.two_orders in
  let env := Sample.late_evening in
  let t7 := today Sample.morning in
  generateOrderNumber env w = (w, inr "20250307-001")
  ∧ Date.civil_from_days (today env / Date.msPerDay) = (2025, 3, 7)
  ∧ Date.civil_from_days (Date.local_day (tz env) (today env)) = (2025, 3, 8)
  ∧ (prisma.order_count (Date.setHours (tz env) t7 0 0 0 0)
       (Date.setHours (tz env) t7 23 59 59 999) w).2 = inr 2
  ∧ (prisma.order_count (Date.setHours (tz env) (today env) 0 0 0 0)
       (Date.setHours (tz env) (today env) 23 59 59 999) w).2 = inr 0
  ∧ number <$> orders w !! "0" = Some "20250307-001"
  ∧ orders (new_order env Sample.cart w) = orders w
  ∧ emitted (new_order env Sample.cart w)
    = (emitted w
         ++ [order_error (PersistenceError (UniqueConstraint "number"))])%list.
Proof. by vm_compute. Qed.

(** ** C9: the history row of a call *)

(** C9, as stated, fails on the text of the note: a NEW order put in
    preparation without a note gets the row
    ["Statut modifié de NEW à PREPARING"], which is not
    ["status changed from NEW to PREPARING"]. *)
Lemma history_note_text :
  statusHistory <$> orders Sample.preparing_unpaid !! "0"
  = Some [mkStatusHistory NEW (Some "Commande créée");
          mkStatusHistory PREPARING (Some "Statut modifié de NEW à PREPARING")]
  ∧ statusHistory <$> orders Sample.preparing_unpaid !! "0"
    ≠ Some [mkStatusHistory NEW (Some "Commande créée");
            mkStatusHistory PREPARING
              (Some "status changed from NEW to PREPARING")].
Proof. split; [by vm_compute|]. vm_compute. discriminate. Qed.

(** C9, amended.  On an existing order, a call that supplies a status of the
    enum adds exactly one history row, with that status and with the note of
    the caller when it is not empty, with
    ["Statut modifié de X à Y"] otherwise (X the previous status, Y the new
    one).  A call that supplies neither status nor [isPaid] succeeds, leaves
    the order as it was and adds no row. *)
Theorem history_row_of_a_call data w o :
  orders w !! orderId data = Some o →
  let w' := update_order_status data w in
  (∀ st, data_status data = Some (status_name st) →
     ∃ o', orders w' !! orderId data = Some o'
         ∧ statusHistory o'
           = (statusHistory o
                ++ [mkStatusHistory st
                      (Some match data_note data with
                            | Some (String c rest) => String c rest
                            | _ => "Statut modifié de "
                                     +:+ status_name (status o)
                                     +:+ " à " +:+ status_name st
                            end)])%list)
  ∧ (data_status data = None → data_isPaid data = None →
     (update_order_status_try data w).2 = inr tt
     ∧ orders w' !! orderId data = Some o
     ∧ emitted w' = (emitted w
          ++ [order_updated (orderId data);
              order_status_changed (orderId data) (status o) (isPaid o)])%list).
Proof.
  intros Ho w'. split.
  - intros st Hst.
    assert (prisma.enum_column (data_status data) (status o) = inr st) as Hcol.
    { unfold prisma.enum_column. by rewrite Hst, parse_status_of_name. }
    destruct (update_partial data w o st Ho Hcol) as (Hor & _).
    exists (updated_order data o st). fold w' in Hor. rewrite Hor.
    split; [apply lookup_insert_eq|].
    unfold updated_order, appended_history. simpl. rewrite Hst.
    by destruct st.
  - intros Hs Hp.
    assert (prisma.enum_column (data_status data) (status o)
            = inr (status o)) as Hcol.
    { unfold prisma.enum_column. by rewrite Hs. }
    assert (updated_order data o (status o) = o) as Hsame.
    { unfold updated_order, appended_history. rewrite Hs, Hp. simpl.
      rewrite app_nil_r. by destruct o. }
    assert (restore_trigger data (status o) (isPaid o) = false) as Hres.
    { unfold restore_trigger. rewrite Hs, Hp. simpl.
      by rewrite !andb_false_r. }
    assert (decrement_trigger data (status o) o = false) as Hdec.
    { unfold decrement_trigger. rewrite Hs, Hp. simpl.
      by rewrite !andb_false_r. }
    assert (products_updated_trigger data (status o) (isPaid o) o = false)
      as Hflag.
    { unfold products_updated_trigger. rewrite Hs, Hp. simpl.
      by rewrite !andb_false_r. }
    destruct (update_accepted data w o (status o) Ho Hcol)
      as (m' & lines & r & Htry & Hcases).
    destruct (update_result_world _ _ _ _ _ _ _ Htry) as (_ & Hor & _ & Hem).
    fold w' in Hor, Hem. rewrite Htry.
    rewrite Hsame, Hdec, Hres, Hflag in *.
    destruct Hcases as [(_ & _ & _ & _ & ->)|[(? & _)|(_ & ? & _)]];
      [|done|done].
    split; [done|]. rewrite Hor, Hem. split; [apply lookup_insert_eq|done].
Qed.

Lemma history_row_of_a_call_witness :
  ∃ o', orders (update_order_status
                  (mkUpdateData "0" (Some "READY") None (Some "pret"))
                  Sample.preparing_paid) !! "0" = Some o'
      ∧ statusHistory o'
        = [mkStatusHistory NEW (Some "Commande créée");
           mkStatusHistory PREPARING (Some "Statut modifié de NEW à PREPARING");
           mkStatusHistory READY (Some "pret")].
Proof.
  destruct (history_row_of_a_call
              (mkUpdateData "0" (Some "READY") None (Some "pret"))
              Sample.preparing_paid
              (Sample.order_of_cart PREPARING true Sample.created_prepared))
    as [Hrow _].
  - by vm_compute.
  - destruct (Hrow READY) as (o' & Hl & Hh); [reflexivity|].
    exists o'. split; [exact Hl|exact Hh].
Defined.

(** ** C10: the default quantity *)

(** C10.  The payload is well formed, its lines name products and the store
    accepts the number [num] of the generator, so that the order is stored.
    A line of the cart whose quantity is absent or zero then gives, among
    the items of the stored order, an item of quantity 1 for the product of
    the line, with the line as its snapshot; the order has one item for each
    line.  The item takes part in the stock functions like any other: when
    the order is put in preparation and paid, and then cancelled, and no
    stock leaves the range of its column, the stock of the product drops by
    what the items of the order ask of it, this item counting for 1, and
    then rises by the same amount. *)
Theorem falsy_quantity_becomes_one env d w num line :
  generateOrderNumber env w = (w, inr num) →
  well_formed d →
  (∀ l, l ∈ panier d → is_Some (products w !! item_id l)) →
  (∀ id o, orders w !! id = Some o → number o ≠ num) →
  line ∈ panier d →
  (item_quantity line = None ∨ item_quantity line = Some 0) →
  ∃ id o it rest,
    orders w !! id = None
    ∧ orders (new_order env d w) !! id = Some o
    ∧ items o ≡ₚ it :: rest
    ∧ length (items o) = length (panier d)
    ∧ productSnapshot it = line
    ∧ productId it = item_id line
    ∧ quantity it = 1
    ∧ (stock_in_range (items o) (products w) →
       ∀ p, products w !! item_id line = Some p →
         let w1 := update_order_status
                     (mkUpdateData id (Some "PREPARING") (Some true) None)
                     (new_order env d w) in
         let w2 := update_order_status
                     (mkUpdateData id (Some "CANCELLED") None None) w1 in
         ∃ p1 p2,
           products w1 !! item_id line = Some p1
           ∧ stock p1 = stock p - (1 + ordered_qty rest (item_id line))
           ∧ products w2 !! item_id line = Some p2
           ∧ stock p2 = stock p1 + (1 + ordered_qty rest (item_id line))).
Proof.
  intros Hnum Hwf Hall Hfree Hline Hq.
  rewrite generateOrderNumber_eq in Hnum. injection Hnum as <-.
  destruct (new_order_stored_eq env d w Hwf Hall Hfree) as [Hid Heq].
  set (id := fresh (dom (orders w))) in *.
  set (o := created_order env d (next_number env (orders w))) in *.
  assert (JS.or_one (item_quantity line) = 1) as Hone.
  { by destruct Hq as [-> | ->]. }
  assert (items o ≡ₚ map to_item (panier d)) as Hperm.
  { apply stored_rows_perm. }
  assert (∃ rest, map to_item (panier d) ≡ₚ to_item line :: rest)
    as [rest Hrest].
  { apply elem_of_Permutation, list_elem_of_fmap. by exists line. }
  exists id, o, (to_item line), rest.
  split; [done|].
  split; [rewrite Heq; simpl; apply lookup_insert_eq|].
  split; [by rewrite Hperm|].
  split; [by rewrite Hperm, length_map|].
  split; [done|]. split; [done|]. split; [done|].
  intros Hrange p Hp.
  assert (ordered_qty (items o) (item_id line)
          = 1 + ordered_qty rest (item_id line)) as Hqty.
  { rewrite (ordered_qty_perm _ _ _ Hperm), (ordered_qty_perm _ _ _ Hrest).
    simpl. rewrite decide_True by done. by rewrite Hone. }
  rewrite <- Hqty. rewrite Heq.
  destruct (prepare_cancel id None None None (new_order_stored d id o w) o)
    with (pid := item_id line) (p := p)
    as (p1 & p2 & Hl1 & Hs1 & Hl2 & _ & Hs2 & _).
  - simpl. apply lookup_insert_eq.
  - intros it Hit. simpl. rewrite Hperm in Hit.
    apply list_elem_of_fmap in Hit as (l & -> & Hl). by apply Hall.
  - done.
  - done.
  - by exists p1, p2.
Qed.

Lemma falsy_quantity_becomes_one_witness :
  ∃ id o it,
    orders (new_order Sample.morning
              (mkOrderData (Some "Zoe") (Some "cb") (Some 2.5%float)
                 [mkProductItem "A" "Cafe" 2.5%float (Some 0)] None)
              Sample.catalogue) !! id = Some o
    ∧ it ∈ items o
    ∧ quantity it = 1.
Proof.
  destruct (falsy_quantity_becomes_one Sample.morning
              (mkOrderData (Some "Zoe") (Some "cb") (Some 2.5%float)
                 [mkProductItem "A" "Cafe" 2.5%float (Some 0)] None)
              Sample.catalogue "20250307-001"
              (mkProductItem "A" "Cafe" 2.5%float (Some 0)))
    as (id & o & it & rest & _ & Ho & Hperm & _ & _ & _ & Hq & _).
  - by vm_compute.
  - sample_well_formed.
  - sample_resolve.
  - intros id o Ho. by vm_compute in Ho.
  - left.
  - by right.
  - exists id, o, it. split; [exact Ho|]. split; [|exact Hq].
    rewrite Hperm. left.
Defined.

(** * Further properties *)

(** ** The connected clients *)

Lemma hub_run_snoc es e h :
  hub_run (es ++ [e]) h = hub_handle e (hub_run es h).
Proof. unfold hub_run. by rewrite foldl_app. Qed.

Lemma hub_consistent_handle e h :
  hub_consistent h → hub_consistent (hub_handle e h).
Proof.
  intros (Hc & Hk & Hsent).
  destruct e as [socket [|]|socket]; simpl;
    unfold register, disconnect, emit_clients_count, hub_consistent; simpl;
    (split; [by rewrite ?Hc|]); (split; [by rewrite ?Hk|]);
    apply Forall_app; (split; [done|]); apply Forall_singleton; simpl;
    by rewrite ?Hk.
Qed.

(** X1.  From a server without client, after any sequence of [register] and
    [disconnect] events, the registry and the rooms hold the same sockets,
    and every [clients_count] event was sent to exactly as many sockets as
    the kitchen count it carries. *)
Theorem clients_count_matches_recipients es :
  let h := hub_run es hub0 in
  connected_customer h = room_customer h
  ∧ connected_kitchen h = room_kitchen h
  ∧ ∀ recipients customers kitchens,
      (recipients, (customers, kitchens)) ∈ clients_count h →
      size recipients = kitchens.
Proof.
  assert (hub_consistent (hub_run es hub0)) as (Hc & Hk & Hsent).
  { induction es as [|e es IH] using rev_ind.
    - unfold hub_consistent. simpl. by repeat split.
    - rewrite hub_run_snoc. by apply hub_consistent_handle. }
  simpl. split; [done|]. split; [done|].
  intros recipients customers kitchens Hin.
  rewrite Forall_forall in Hsent. by apply (Hsent _ Hin).
Qed.

Lemma connected_register socket t socket' t' h :
  socket ∈ connected t (register socket' t' h)
  ↔ (socket = socket' ∧ t = t') ∨ socket ∈ connected t h.
Proof. destruct t, t'; simpl; set_solver. Qed.

Lemma connected_disconnect socket t socket' h :
  socket ∈ connected t (disconnect socket' h)
  ↔ socket ≠ socket' ∧ socket ∈ connected t h.
Proof. destruct t; simpl; set_solver. Qed.

(** X2.  After any sequence of events, a socket is in the set of a client
    type exactly when it has registered under that type and has not
    disconnected since. *)
Theorem connected_iff_registered_since es socket t :
  socket ∈ connected t (hub_run es hub0)
  ↔ ∃ before after,
      es = (before ++ Register socket t :: after)%list
      ∧ Disconnect socket ∉ after.
Proof.
  induction es as [|e es IH] using rev_ind.
  - split.
    + destruct t; simpl; set_solver.
    + intros (before & after & Heq & _). by destruct before.
  - rewrite hub_run_snoc. destruct e as [socket' t'|socket']; simpl.
    + rewrite connected_register, IH. split.
      * intros [[-> ->]|(before & after & -> & Hnot)].
        -- exists es, []. split; [done|]. apply not_elem_of_nil.
        -- exists before, (after ++ [Register socket' t'])%list.
           split; [by rewrite <- app_assoc|].
           rewrite elem_of_app, list_elem_of_singleton. naive_solver.
      * intros (before & after & Heq & Hnot).
        destruct after as [|a after _] using rev_ind.
        -- apply app_inj_tail in Heq as [_ [= <- <-]]. by left.
        -- rewrite app_comm_cons, app_assoc in Heq.
           apply app_inj_tail in Heq as [-> _]. right.
           exists before, after. split; [done|].
           intros Hin. apply Hnot. apply elem_of_app. by left.
    + rewrite connected_disconnect, IH. split.
      * intros (Hne & before & after & -> & Hnot).
        exists before, (after ++ [Disconnect socket'])%list.
        split; [by rewrite <- app_assoc|].
        rewrite elem_of_app, list_elem_of_singleton. naive_solver.
      * intros (before & after & Heq & Hnot).
        destruct after as [|a after _] using rev_ind.
        -- apply app_inj_tail in Heq as [_ [=]].
        -- rewrite app_comm_cons, app_assoc in Heq.
           apply app_inj_tail in Heq as [-> <-].
           rewrite elem_of_app, list_elem_of_singleton in Hnot.
           split; [naive_solver|].
           exists before, after. split; [done|]. naive_solver.
Qed.

(** X3.  [disconnect] takes the socket out of both sets: each count drops by
    one when the socket was in the set and stays otherwise, and the event
    sent carries the two new counts. *)
Theorem disconnect_counts socket h :
  let h' := disconnect socket h in
  (size (connected_customer h')
   = size (connected_customer h)
     - (if decide (socket ∈ connected_customer h) then 1 else 0))%nat
  ∧ (size (connected_kitchen h')
     = size (connected_kitchen h)
       - (if decide (socket ∈ connected_kitchen h) then 1 else 0))%nat
  ∧ (socket ∉ connected_customer h') ∧ (socket ∉ connected_kitchen h')
  ∧ clients_count h'
    = (clients_count h
         ++ [(room_kitchen h ∖ {[socket]},
              (size (connected_customer h'), size (connected_kitchen h')))])%list.
Proof.
  assert (∀ X : gset string,
            size (X ∖ {[socket]})
            = (size X - (if decide (socket ∈ X) then 1 else 0))%nat) as Hsize.
  { intros X. case_decide as Hin.
    - rewrite size_difference by set_solver. by rewrite size_singleton.
    - rewrite difference_disjoint_L by set_solver. lia. }
  simpl. rewrite !Hsize. repeat split; set_solver.
Qed.

(** X4.  [register] adds to one set and removes from none: registering again
    under the same type changes no set, and a socket that registers under
    both types is in both sets and counted twice. *)
Theorem register_adds_only socket t h :
  (∀ t', connected t' (register socket t (register socket t h))
         = connected t' (register socket t h))
  ∧ (∀ t' s, s ∈ connected t' h → s ∈ connected t' (register socket t h))
  ∧ socket ∈ connected_customer (register socket kitchen
                                   (register socket customer h))
  ∧ socket ∈ connected_kitchen (register socket kitchen
                                  (register socket customer h)).
Proof.
  split; [|split; [|split]].
  - intros t'. destruct t, t'; simpl; set_solver.
  - intros t' s. destruct t, t'; simpl; set_solver.
  - simpl. set_solver.
  - simpl. set_solver.
Qed.

(** ** The payment method *)

Lemma letters_code c d :
  (c, d) ∈ letters → N_of_ascii c = (N_of_ascii d + 32)%N
                     ∧ JS.upper_char c = d ∧ JS.upper_char d = d.
Proof.
  unfold letters. intros Hin.
  repeat (apply elem_of_cons in Hin as [[= -> ->]|Hin]; [by vm_compute|]).
  by apply elem_of_nil in Hin.
Qed.

Lemma upper_char_inv c : JS.upper_char c = c ∨ (c, JS.upper_char c) ∈ letters.
Proof.
  destruct c as [[] [] [] [] [] [] [] []];
    first [by left | right; apply (bool_decide_unpack _); by vm_compute].
Qed.

Lemma upper_char_same c c' :
  same_letter c c' ↔ JS.upper_char c = JS.upper_char c'.
Proof.
  split.
  - intros [->|[Hin|Hin]]; [done| |].
    + by destruct (letters_code _ _ Hin) as (_ & -> & ->).
    + by destruct (letters_code _ _ Hin) as (_ & -> & ->).
  - intros Heq.
    destruct (upper_char_inv c) as [Hc|Hc], (upper_char_inv c') as [Hc'|Hc'].
    + left. congruence.
    + right; right. by rewrite <- Hc, Heq.
    + right; left. by rewrite <- Hc', <- Heq.
    + left. rewrite Heq in Hc.
      destruct (letters_code _ _ Hc) as (Hn & _).
      destruct (letters_code _ _ Hc') as (Hn' & _).
      rewrite <- (ascii_N_embedding c), <- (ascii_N_embedding c').
      by rewrite Hn, Hn'.
Qed.

(** Two strings have the same upper-case form exactly when they are the
    same up to the case of their letters. *)
Lemma same_spelling_iff s : ∀ s',
  same_spelling s s' ↔ JS.toUpperCase s = JS.toUpperCase s'.
Proof.
  induction s as [|c s IH]; intros [|c' s']; simpl; try done.
  rewrite upper_char_same, IH. split.
  - by intros [-> ->].
  - by intros [= -> ->].
Qed.

(** X5.  [mapPaymentMethod] does not depend on the case of the letters: two
    payment strings that differ only by the case of their letters give the
    same method.  It gives CARD exactly for the spellings of cb and card,
    PAYPAL exactly for the spellings of paypal, and CASH for every other
    string: no string is refused. *)
Theorem mapPaymentMethod_cases method :
  (∀ method', same_spelling method method' →
     mapPaymentMethod method' = mapPaymentMethod method)
  ∧ (mapPaymentMethod method = CARD
     ↔ same_spelling method "cb" ∨ same_spelling method "card")
  ∧ (mapPaymentMethod method = PAYPAL ↔ same_spelling method "paypal")
  ∧ (mapPaymentMethod method = CASH
     ↔ ¬ same_spelling method "cb" ∧ ¬ same_spelling method "card"
       ∧ ¬ same_spelling method "paypal").
Proof.
  split.
  { intros method' Hsame. apply same_spelling_iff in Hsame.
    unfold mapPaymentMethod. by rewrite Hsame. }
  rewrite !same_spelling_iff. unfold mapPaymentMethod.
  change (JS.toUpperCase "cb") with "CB".
  change (JS.toUpperCase "card") with "CARD".
  change (JS.toUpperCase "paypal") with "PAYPAL".
  destruct (String.eqb_spec (JS.toUpperCase method) "CB") as [->|?];
    [by intuition (try congruence; auto)|].
  destruct (String.eqb_spec (JS.toUpperCase method) "CARD") as [->|?];
    [by intuition (try congruence; auto)|].
  destruct (String.eqb_spec (JS.toUpperCase method) "ESPECES") as [->|?];
    [by intuition (try congruence; auto)|].
  destruct (String.eqb_spec (JS.toUpperCase method) "CASH") as [->|?];
    [by intuition (try congruence; auto)|].
  destruct (String.eqb_spec (JS.toUpperCase method) "PAYPAL") as [->|?];
    by intuition (try congruence; auto).
Qed.

(** ** The events of [update_order_status] *)

(** X6.  A call that the store accepts, on an existing order whose items
    have their products, and that takes no stock out of the range of its
    column, sends no [update_error]: it sends [order_updated], then
    [order_status_changed] with the status and the [isPaid] of the updated
    order, then [products_updated] exactly when one of the four conditions
    of the listener holds, whether or not any stock has changed. *)
Theorem update_events data w o st :
  orders w !! orderId data = Some o →
  (data_status data = None ∧ st = status o
   ∨ data_status data = Some (status_name st)) →
  (∀ it, it ∈ items o → is_Some (products w !! productId it)) →
  stock_in_range (items o) (products w) →
  let w' := update_order_status data w in
  let paid' := default (isPaid o) (data_isPaid data) in
  let stock_event :=
    (data_status data = Some "PREPARING" ∧ paid' = true)
    ∨ (status o = PREPARING ∧ data_isPaid data = Some true)
    ∨ (status o = PREPARING ∧ data_status data = Some "CANCELLED")
    ∨ (status o = PREPARING ∧ isPaid o = true
       ∧ data_isPaid data = Some false) in
  ∃ tail,
    emitted w'
    = (emitted w ++ order_updated (orderId data)
         :: order_status_changed (orderId data) st paid' :: tail)%list
    ∧ (stock_event → ∃ ps, tail = [products_updated ps])
    ∧ (¬ stock_event → tail = []).
Proof.
  intros Ho Hst Hfk Hrange w' paid' stock_event.
  pose proof (accepted_column data o st Hst) as Hcol.
  destruct (update_outcome data w o st Ho Hcol Hfk) as (_ & _ & Hem & _).
  { intros _. by apply stock_in_range_no_overflow; [right|]. }
  { intros _. by apply stock_in_range_no_overflow; [left|]. }
  pose proof (products_updated_trigger_iff data o st Hst) as Htrig.
  fold paid' stock_event in Htrig. fold w' in Hem. rewrite Hem.
  destruct (products_updated_trigger _ _ _ _).
  - eexists. split; [reflexivity|]. split; [by eexists|].
    intros Hn. destruct Hn. by apply Htrig.
  - exists []. split; [reflexivity|]. split; [|done].
    intros Hs. apply Htrig in Hs. discriminate.
Qed.

Lemma update_events_witness :
  ∃ tail,
    emitted (update_order_status
               (mkUpdateData "0" (Some "READY") (Some true) None)
               Sample.preparing_unpaid)
    = (emitted Sample.preparing_unpaid
         ++ order_updated "0" :: order_status_changed "0" READY true
         :: tail)%list
    ∧ ∃ ps, tail = [products_updated ps].
Proof.
  destruct (update_events
              (mkUpdateData "0" (Some "READY") (Some true) None)
              Sample.preparing_unpaid
              (Sample.order_of_cart PREPARING false Sample.created_prepared)
              READY)
    as (tail & Hem & Hsent & _).
  - by vm_compute.
  - by right.
  - sample_resolve.
  - sample_stock_in_range.
  - exists tail. split; [exact Hem|]. apply Hsent. right. left. by split.
Defined.

(** X7.  When [products_updated] is sent, it carries exactly the rows, as
    they are after the call, of the products that the items of the order
    reference: each such product once, and no other product. *)
Theorem products_updated_payload data w o st ps :
  orders w !! orderId data = Some o →
  (data_status data = None ∧ st = status o
   ∨ data_status data = Some (status_name st)) →
  (∀ it, it ∈ items o → is_Some (products w !! productId it)) →
  let w' := update_order_status data w in
  last (emitted w') = Some (products_updated ps) →
  NoDup ps.*1
  ∧ ∀ pid p, (pid, p) ∈ ps
      ↔ products w' !! pid = Some p ∧ pid ∈ map productId (items o).
Proof.
  intros Ho Hst Hfk w'.
  pose proof (accepted_column data o st Hst) as Hcol.
  destruct (update_accepted data w o st Ho Hcol)
    as (m' & lines & r & Htry & _).
  destruct (update_result_world _ _ _ _ _ _ _ Htry) as (Hp & _ & _ & Hem).
  fold w' in Hp, Hem. rewrite Hp, Hem.
  destruct r as [e|[]].
  { rewrite last_app. simpl. discriminate. }
  destruct (products_updated_trigger _ _ _ _).
  - rewrite !last_app. simpl. intros [= <-]. split.
    + apply NoDup_fmap_fst.
      * intros pid p1 p2 H1 H2.
        apply list_elem_of_filter in H1 as [_ H1].
        apply list_elem_of_filter in H2 as [_ H2].
        apply elem_of_map_to_list in H1, H2. congruence.
      * apply NoDup_filter, NoDup_map_to_list.
    + intros pid p. rewrite list_elem_of_filter, elem_of_map_to_list. simpl.
      tauto.
  - rewrite !last_app. simpl. discriminate.
Qed.

Lemma products_updated_payload_witness :
  ∃ ps, last (emitted (update_order_status Sample.to_preparing_paid
                         Sample.submitted)) = Some (products_updated ps)
      ∧ ("B", mkProduct "Tarte" 0 false) ∈ ps.
Proof.
  eexists. split; [by vm_compute|].
  apply (products_updated_payload Sample.to_preparing_paid Sample.submitted
           (Sample.order_of_cart NEW false Sample.created) PREPARING).
  - by vm_compute.
  - by right.
  - sample_resolve.
  - by vm_compute.
  - split; [by vm_compute|]. vm_compute. right. left.
Defined.

(** ** The availability flag after a decrement *)

(** X8.  When the stock of an order is taken, and no stock leaves the range
    of its column, the availability flag of a product that the order
    references is computed from the stock read before the loop and the
    quantity of the last item that references the product, in the order in
    which the store returns the items; the flag of the other products is
    kept.  When the items reference pairwise distinct products, the flag of
    a referenced product says whether its new stock is positive. *)
Theorem availability_after_decrement data w o st :
  orders w !! orderId data = Some o →
  (data_status data = None ∧ st = status o
   ∨ data_status data = Some (status_name st)) →
  (∀ it, it ∈ items o → is_Some (products w !! productId it)) →
  st = PREPARING ∧ default (isPaid o) (data_isPaid data) = true
  ∧ (data_status data = Some "PREPARING"
     ∨ (status o = PREPARING ∧ data_isPaid data = Some true)) →
  stock_in_range (items o) (products w) →
  let w' := update_order_status data w in
  ∀ pid p, products w !! pid = Some p →
    ∃ p', products w' !! pid = Some p'
        ∧ isAvailable p'
          = match last_qty (items o) pid with
            | Some q => bool_decide (stock p - q > 0)
            | None => isAvailable p
            end
        ∧ (NoDup (map productId (items o)) →
           pid ∈ map productId (items o) →
           isAvailable p' = bool_decide (stock p' > 0)).
Proof.
  intros Ho Hst Hfk Hfires Hrange w' pid p Hp.
  pose proof (accepted_column data o st Hst) as Hcol.
  apply (decrement_guard_iff data o st Hst) in Hfires.
  destruct (update_outcome data w o st Ho Hcol Hfk) as (_ & _ & _ & _ & Hsome).
  { intros _. by apply stock_in_range_no_overflow; [right|]. }
  { intros _. by apply stock_in_range_no_overflow; [left|]. }
  destruct (Hsome pid p Hp) as (p' & Hl & _ & Hs & _ & _ & Hav).
  rewrite Hfires in Hs. specialize (Hav Hfires).
  exists p'. split; [done|]. split; [done|].
  intros Hnd Hin. rewrite Hav.
  destruct (last_qty_referenced _ _ Hin) as [q Hq]. rewrite Hq.
  rewrite Hs, (ordered_qty_distinct _ _ _ Hnd Hq).
  apply bool_decide_ext. lia.
Qed.

Lemma availability_after_decrement_witness :
  ∃ p', products (update_order_status Sample.to_preparing_paid
                    Sample.submitted) !! "B" = Some p'
      ∧ isAvailable p' = false.
Proof.
  destruct (availability_after_decrement Sample.to_preparing_paid
              Sample.submitted
              (Sample.order_of_cart NEW false Sample.created)
              PREPARING) with (pid := "B") (p := mkProduct "Tarte" 1 true)
    as (p' & Hl & Hflag & _).
  - by vm_compute.
  - by right.
  - sample_resolve.
  - split; [reflexivity|]. split; [reflexivity|]. by left.
  - sample_stock_in_range.
  - by vm_compute.
  - exists p'. split; [exact Hl|]. rewrite Hflag. by vm_compute.
Defined.

(** The flag depends on the order in which the store returns the items: a
    cart with three cafes and then ten, on a stock of ten, leaves the cafe
    unavailable when the store returns the items as they were given, and
    available when it returns the larger quantity first. *)
Example availability_depends_on_the_order_of_the_rows :
  let d := mkOrderData (Some "Zoe") (Some "cb") (Some 32.5%float)
             [mkProductItem "A" "Cafe" 2.5%float (Some 3);
              mkProductItem "A" "Cafe" 2.5%float (Some 10)] None in
  let taken env :=
    products (run [NewOrder env d; UpdateOrderStatus Sample.to_preparing_paid]
                Sample.catalogue) !! "A" in
  taken Sample.morning = Some (mkProduct "Cafe" (-3) false)
  ∧ taken Sample.morning_largest_first = Some (mkProduct "Cafe" (-3) true).
Proof. by vm_compute. Qed.

(** ** Taking the stock and giving it back *)

(** X9.  An order is put in preparation and paid, then cancelled, and no
    stock leaves the range of its column on the way: after the two calls
    every product has the stock it had before them, the products that the
    order references are available and the others are as they were. *)
Theorem prepare_then_cancel_restores_stock id n1 paid n2 w o :
  orders w !! id = Some o →
  (∀ it, it ∈ items o → is_Some (products w !! productId it)) →
  stock_in_range (items o) (products w) →
  let w1 := update_order_status
              (mkUpdateData id (Some "PREPARING") (Some true) n1) w in
  let w2 := update_order_status
              (mkUpdateData id (Some "CANCELLED") paid n2) w1 in
  ∀ pid p, products w !! pid = Some p →
    ∃ p2, products w2 !! pid = Some p2
        ∧ name p2 = name p
        ∧ stock p2 = stock p
        ∧ (pid ∈ map productId (items o) → isAvailable p2 = true)
        ∧ (pid ∉ map productId (items o) → p2 = p).
Proof.
  intros Ho Hfk Hrange w1 w2 pid p Hpid.
  destruct (prepare_cancel id n1 paid n2 w o Ho Hfk Hrange pid p Hpid)
    as (p1 & p2 & _ & Hs1 & Hl2 & Hn & Hs2 & Hav & Hun).
  exists p2. split; [done|]. split; [done|]. split; [lia|]. by split.
Qed.

Lemma prepare_then_cancel_restores_stock_witness :
  ∃ p2, products (update_order_status
                    (mkUpdateData "0" (Some "CANCELLED") None None)
                    (update_order_status
                       (mkUpdateData "0" (Some "PREPARING") (Some true) None)
                       Sample.submitted)) !! "B" = Some p2
      ∧ stock p2 = 1.
Proof.
  destruct (prepare_then_cancel_restores_stock "0" None None None
              Sample.submitted
              (Sample.order_of_cart NEW false Sample.created))
    with (pid := "B") (p := mkProduct "Tarte" 1 true)
    as (p2 & Hl & _ & Hs & _).
  - by vm_compute.
  - sample_resolve.
  - sample_stock_in_range.
  - by vm_compute.
  - exists p2. split; [exact Hl|exact Hs].
Defined.

(** ** Orders over a sequence of requests *)

(** X10.  The history of an order is only ever extended: over any sequence
    of requests an order stays in the table, its history keeps its rows and
    gains, in the order of the calls, one row for each accepted
    [update_order_status] on it that supplies a status, with that status. *)
Theorem history_is_append_only rs w id o :
  orders w !! id = Some o →
  ∃ o' rows, orders (run rs w) !! id = Some o'
    ∧ statusHistory o' = (statusHistory o ++ rows)%list
    ∧ map history_status rows = omap (supplied_status id) rs
    ∧ length (statusHistory o')
      = (length (statusHistory o)
         + length (omap (supplied_status id) rs))%nat.
Proof.
  intros Ho.
  destruct (run_order rs w id o Ho)
    as (o' & Ho' & _ & _ & _ & _ & _ & _ & rows & Hh & Hm).
  exists o', rows. split; [done|]. split; [done|]. split; [done|].
  by rewrite Hh, length_app, <- Hm, length_map.
Qed.

Lemma history_is_append_only_witness :
  ∃ o' rows,
    orders (run [UpdateOrderStatus (mkUpdateData "0" (Some "READY") None None);
                 UpdateOrderStatus (mkUpdateData "0" None (Some false) None);
                 UpdateOrderStatus (mkUpdateData "0" (Some "DONE") None None);
                 UpdateOrderStatus (mkUpdateData "0" (Some "COMPLETED") None None)]
              Sample.preparing_paid) !! "0" = Some o'
    ∧ map history_status rows = [READY; COMPLETED]
    ∧ map history_status (statusHistory o')
      = [NEW; PREPARING; READY; COMPLETED].
Proof.
  destruct (history_is_append_only
              [UpdateOrderStatus (mkUpdateData "0" (Some "READY") None None);
               UpdateOrderStatus (mkUpdateData "0" None (Some false) None);
               UpdateOrderStatus (mkUpdateData "0" (Some "DONE") None None);
               UpdateOrderStatus (mkUpdateData "0" (Some "COMPLETED") None None)]
              Sample.preparing_paid "0"
              (Sample.order_of_cart PREPARING true Sample.created_prepared))
    as (o' & rows & Ho' & Hh & Hm & _).
  - by vm_compute.
  - exists o', rows. split; [exact Ho'|]. split; [exact Hm|].
    rewrite Hh, map_app, Hm. reflexivity.
Defined.

(** X11.  Over any sequence of requests, the number, the customer, the
    creation date and the items of an order never change, and its status
    and its [isPaid] are the last ones that an accepted call supplied for
    it, or the initial ones when no call supplied any. *)
Theorem order_fields_over_requests rs w id o :
  orders w !! id = Some o →
  ∃ o', orders (run rs w) !! id = Some o'
      ∧ number o' = number o ∧ customerName o' = customerName o
      ∧ createdAt o' = createdAt o ∧ items o' = items o
      ∧ status o' = default (status o) (last (omap (supplied_status id) rs))
      ∧ isPaid o' = default (isPaid o) (last (omap (supplied_isPaid id) rs)).
Proof.
  intros Ho.
  destruct (run_order rs w id o Ho)
    as (o' & Ho' & Hn & Hc & Ht & Hi & Hs & Hp & _).
  exists o'. by repeat split.
Qed.

Lemma order_fields_over_requests_witness :
  ∃ o', orders (run [UpdateOrderStatus
                       (mkUpdateData "0" (Some "READY") (Some false) None);
                     NewOrder Sample.late_evening Sample.cart;
                     UpdateOrderStatus
                       (mkUpdateData "0" (Some "nope") (Some true) None)]
                  Sample.preparing_paid) !! "0" = Some o'
      ∧ status o' = READY ∧ isPaid o' = false
      ∧ items o' = map to_item (panier Sample.cart).
Proof.
  destruct (order_fields_over_requests
              [UpdateOrderStatus
                 (mkUpdateData "0" (Some "READY") (Some false) None);
               NewOrder Sample.late_evening Sample.cart;
               UpdateOrderStatus
                 (mkUpdateData "0" (Some "nope") (Some true) None)]
              Sample.preparing_paid "0"
              (Sample.order_of_cart PREPARING true Sample.created_prepared))
    as (o' & Ho' & _ & _ & _ & Hi & Hs & Hp).
  - by vm_compute.
  - exists o'. split; [exact Ho'|]. split; [exact Hs|].
    split; [exact Hp|exact Hi].
Defined.

(** ** Invariants of the tables *)

(** X12.  No two stored orders ever share a number: a state where the
    numbers are pairwise distinct is followed, over any sequence of
    requests, by states where they are. *)
Theorem numbers_stay_unique rs : ∀ w,
  numbers_unique w → numbers_unique (run rs w).
Proof.
  induction rs as [|r rs IH]; intros w Hu; [done|].
  rewrite run_cons. apply IH. by apply numbers_unique_handle.
Qed.

Lemma numbers_stay_unique_witness :
  numbers_unique
    (run [NewOrder Sample.morning Sample.cart;
          NewOrder Sample.late_evening Sample.cart;
          NewOrder Sample.morning Sample.cart] Sample.catalogue).
Proof.
  apply (numbers_stay_unique _ Sample.catalogue).
  intros id1 id2 o1 o2 H1. by vm_compute in H1.
Defined.

(** X13.  The status of an order is always the status of its last history
    row: the property holds for every order that [new_order] creates and no
    request breaks it. *)
Theorem status_is_last_history_row rs : ∀ w,
  history_tracks_status w → history_tracks_status (run rs w).
Proof.
  induction rs as [|r rs IH]; intros w Hinv; [done|].
  rewrite run_cons. apply IH. by apply history_tracks_status_handle.
Qed.

Lemma status_is_last_history_row_witness :
  history_tracks_status
    (run [NewOrder Sample.morning Sample.cart;
          UpdateOrderStatus Sample.to_preparing_paid;
          UpdateOrderStatus (mkUpdateData "0" None (Some false) None)]
       Sample.catalogue).
Proof.
  apply (status_is_last_history_row _ Sample.catalogue).
  intros id o H. by vm_compute in H.
Defined.

(** X14.  The catalogue is fixed: over any sequence of requests no product
    is created, none is deleted and none changes its name; only the stock
    and the availability flag of a product can change. *)
Theorem catalogue_is_fixed rs : ∀ w pid,
  name <$> products (run rs w) !! pid = name <$> products w !! pid.
Proof.
  induction rs as [|r rs IH]; intros w pid; [done|].
  by rewrite run_cons, IH, handle_products.
Qed.


(** ** Errors and events of the two listeners *)

(** X15.  In a state reached from one where every item has its product, an
    [update_order_status] on a stored order whose status, when supplied, is
    a member of the enum can only throw on a stock that leaves the range of
    its column: the stock functions always find the products of the items,
    since [new_order] stores only items whose product it has found and
    nothing deletes a product.  When no stock can leave its range the call
    does not throw and sends no [update_error]. *)
Theorem update_throws_only_out_of_range rs w data o :
  items_resolve w →
  orders (run rs w) !! orderId data = Some o →
  (data_status data = None ∨ ∃ st, data_status data = Some (status_name st)) →
  ((update_order_status_try data (run rs w)).2 = inr tt
   ∨ (update_order_status_try data (run rs w)).2
     = inl (PersistenceError (IntegerOutOfRange "stock")))
  ∧ (stock_in_range (items o) (products (run rs w)) →
     (update_order_status_try data (run rs w)).2 = inr tt
     ∧ ∀ e, update_error e ∉ drop (length (emitted (run rs w)))
                               (emitted (update_order_status data (run rs w)))).
Proof.
  intros Hinv Ho Hst.
  pose proof (items_resolve_run rs w Hinv) as Hres.
  assert (∀ it, it ∈ items o →
            is_Some (products (run rs w) !! productId it)) as Hfk.
  { intros it Hit. by apply (Hres (orderId data) o it). }
  assert (∃ st, prisma.enum_column (data_status data) (status o) = inr st)
    as [st Hcol].
  { unfold prisma.enum_column. destruct Hst as [->|[st ->]]; [by eexists|].
    rewrite parse_status_of_name. by eexists. }
  split.
  - destruct (update_accepted data (run rs w) o st Ho Hcol)
      as (m' & lines & r & -> & Hcases).
    assert (∀ start delta avail line,
              adjusted (items o) start delta avail line
                (products (run rs w)) m' lines r →
              r = inr tt ∨ r = inl (PersistenceError (IntegerOutOfRange "stock")))
      as Hadjusted.
    { intros start delta avail line
        [(_ & _ & _ & Hno)|(rows & k & _ & _ & _ & Hend & _)]; [done|].
      destruct Hend as [[-> _]|[-> _]]; [by left|by right]. }
    assert (r = inr tt ∨ r = inl (PersistenceError (IntegerOutOfRange "stock")))
      as [-> | ->]; [|by left|by right].
    destruct Hcases as [(_ & _ & _ & _ & ->)|[(_ & _ & Hadj)|(_ & _ & Hadj)]];
      [by left|by eapply Hadjusted..].
  - intros Hrange.
    destruct (update_outcome data (run rs w) o st Ho Hcol Hfk)
      as (Hr & _ & Hem & _).
    { intros _. by apply stock_in_range_no_overflow; [right|]. }
    { intros _. by apply stock_in_range_no_overflow; [left|]. }
    split; [done|]. intros e. rewrite Hem, drop_app_length.
    destruct (products_updated_trigger _ _ _ _); simpl;
      rewrite !elem_of_cons, elem_of_nil; intuition discriminate.
Qed.

Lemma update_throws_only_out_of_range_witness :
  (update_order_status_try
     (mkUpdateData "0" (Some "CANCELLED") None None)
     (run [NewOrder Sample.morning Sample.cart;
           UpdateOrderStatus Sample.to_preparing_paid] Sample.catalogue)).2
  = inr tt.
Proof.
  apply (update_throws_only_out_of_range
           [NewOrder Sample.morning Sample.cart;
            UpdateOrderStatus Sample.to_preparing_paid]
           Sample.catalogue
           (mkUpdateData "0" (Some "CANCELLED") None None)
           (Sample.order_of_cart PREPARING true Sample.created_prepared)).
  - intros id o it H. by vm_compute in H.
  - by vm_compute.
  - right. by exists CANCELLED.
  - sample_stock_in_range.
Defined.

(** X16.  An [update_order_status] for an id that names no order changes no
    table: it prints the request and the error, and sends the
    [update_error] of the missing order. *)
Theorem update_unknown_order data w :
  orders w !! orderId data = None →
  update_order_status data w
  = mkWorld (products w) (orders w)
      (console w ++ [UpdateReceived data;
                     UpdateFailed (OrderNotFound (orderId data))])
      (emitted w ++ [update_error (OrderNotFound (orderId data))]).
Proof.
  intros Ho. rewrite update_order_status_eq.
  rewrite (update_try_not_found data w Ho).
  unfold update_failed. simpl. by rewrite <- app_assoc.
Qed.

Lemma update_unknown_order_witness :
  emitted (update_order_status (mkUpdateData "7" (Some "READY") None None)
             Sample.submitted)
  = (emitted Sample.submitted ++ [update_error (OrderNotFound "7")])%list
  ∧ orders (update_order_status (mkUpdateData "7" (Some "READY") None None)
              Sample.submitted) = orders Sample.submitted.
Proof.
  rewrite (update_unknown_order (mkUpdateData "7" (Some "READY") None None)
             Sample.submitted); [by split|by vm_compute].
Defined.

(** X17.  A submission that is stored (a well-formed payload whose lines
    name products and whose number is free) prints the payload and the id of
    the order, and sends [order_confirmation], with the id under which the
    order is stored and the number stored in it, then [new_order_received]
    for the same order; it sends no [order_error] and changes no product. *)
Theorem new_order_events env d w num :
  generateOrderNumber env w = (w, inr num) →
  well_formed d →
  (∀ line, line ∈ panier d → is_Some (products w !! item_id line)) →
  (∀ id o, orders w !! id = Some o → number o ≠ num) →
  ∃ id o,
    new_order env d w
    = mkWorld (products w) (<[id := o]> (orders w))
        (console w ++ [NewOrderReceived d; OrderCreated id])
        (emitted w ++ [order_confirmation id num; new_order_received id])
    ∧ orders w !! id = None ∧ number o = num.
Proof.
  intros Hnum Hwf Hall Hfree.
  rewrite generateOrderNumber_eq in Hnum. injection Hnum as <-.
  destruct (new_order_stored_eq env d w Hwf Hall Hfree) as [Hid ->].
  by eexists _, _.
Qed.

Lemma new_order_events_witness :
  emitted (new_order Sample.morning Sample.cart Sample.catalogue)
  = [order_confirmation "0" "20250307-001"; new_order_received "0"].
Proof.
  destruct (new_order_events Sample.morning Sample.cart Sample.catalogue
              "20250307-001") as (id & o & Heq & _ & _).
  - by vm_compute.
  - sample_well_formed.
  - sample_resolve.
  - intros id o Ho. by vm_compute in Ho.
  - by vm_compute.
Defined.

(** X21.  A submission is written whole or not at all.  It never changes a
    product.  Either it stores exactly one order, NEW and unpaid, under a
    fresh id and the number of the generator, with one item for each line
    of the cart and the single history row NEW, and confirms it; or it
    leaves the order table as it was and sends one [order_error].  It
    stores the order when the payload is well formed, every line names a
    product and the number is free; it stores nothing when the payment
    method is missing, a line names no product, instructions are given, a
    quantity does not fit its column or the number is taken.  With a payment
    method and a line that names no product, the error is that of such a
    line. *)
Theorem submission_is_all_or_nothing env d w num :
  generateOrderNumber env w = (w, inr num) →
  let w' := new_order env d w in
  let acceptable :=
    well_formed d
    ∧ (∀ line, line ∈ panier d → is_Some (products w !! item_id line))
    ∧ (∀ id o, orders w !! id = Some o → number o ≠ num) in
  products w' = products w
  ∧ (acceptable →
     ∃ id o, orders w !! id = None
       ∧ orders w' = <[id := o]> (orders w)
       ∧ size (orders w') = S (size (orders w))
       ∧ number o = num ∧ status o = NEW ∧ isPaid o = false
       ∧ items o ≡ₚ map to_item (panier d)
       ∧ length (items o) = length (panier d)
       ∧ statusHistory o = [mkStatusHistory NEW (Some "Commande créée")]
       ∧ emitted w'
         = (emitted w
              ++ [order_confirmation id num; new_order_received id])%list)
  ∧ (paiement d = None
     ∨ (∃ line, line ∈ panier d ∧ products w !! item_id line = None)
     ∨ JS.truthy (instructions d) = true
     ∨ (∃ line, line ∈ panier d ∧ ¬ int4 (JS.or_one (item_quantity line)))
     ∨ (∃ id o, orders w !! id = Some o ∧ number o = num) →
     orders w' = orders w
     ∧ ∃ e, emitted w' = (emitted w ++ [order_error e])%list)
  ∧ ((orders w' = orders w
      ∧ ∃ e, emitted w' = (emitted w ++ [order_error e])%list)
     ∨ (∃ id, orders w !! id = None ∧ dom (orders w') = {[id]} ∪ dom (orders w)
          ∧ emitted w'
            = (emitted w
                 ++ [order_confirmation id num; new_order_received id])%list))
  ∧ (is_Some (paiement d) →
     (∃ line, line ∈ panier d ∧ products w !! item_id line = None) →
     ∃ line, line ∈ panier d ∧ products w !! item_id line = None
       ∧ emitted w'
         = (emitted w ++ [order_error (ProductNotFound (item_id line))])%list).
Proof.
  intros Hnum w' acceptable.
  rewrite generateOrderNumber_eq in Hnum. injection Hnum as <-.
  split; [apply new_order_products|]. split; [|split; [|split]].
  - intros (Hwf & Hall & Hfree).
    destruct (new_order_stored_eq env d w Hwf Hall Hfree) as [Hid Heq].
    subst w'. rewrite Heq.
    exists (fresh (dom (orders w))),
      (created_order env d (next_number env (orders w))).
    split; [exact Hid|]. split; [done|].
    split; [by apply map_size_insert_None|].
    split; [done|]. split; [done|]. split; [done|].
    split; [apply stored_rows_perm|].
    split; [|done].
    unfold created_order. cbn [items].
    by rewrite stored_rows_perm, length_map.
  - intros Hnot.
    destruct (new_order_outcome env d w)
      as [((Hn & Hp & Ht & Hi & Hlines) & Hall & Hfree & _)|(_ & e & Heq)].
    2: { subst w'. rewrite Heq. simpl. split; [done|]. by exists e. }
    exfalso.
    destruct Hnot as [Hno|[(line & Hl & Hnone)|[Hinstr|[(line & Hl & Hbad)
                     |(id & o & Ho & Hnum)]]]].
    + destruct Hp as [? ?]. congruence.
    + destruct (Hall line Hl) as [? ?]. congruence.
    + congruence.
    + by destruct (Hlines line Hl).
    + by apply (Hfree id o).
  - destruct (new_order_outcome env d w)
      as [(_ & _ & _ & Hid & Heq)|(_ & e & Heq)]; subst w'; rewrite Heq.
    + right. exists (fresh (dom (orders w))). split; [done|]. simpl.
      split; [by rewrite dom_insert_L|done].
    + left. simpl. split; [done|]. by exists e.
  - intros Hpay Hex.
    destruct (new_order_not_found env d w Hpay Hex)
      as (line & Hl & Hnone & Heq).
    exists line. split; [done|]. split; [done|]. subst w'. by rewrite Heq.
Qed.

Lemma submission_is_all_or_nothing_witness :
  ∃ id o, orders (new_order Sample.morning Sample.cart Sample.catalogue)
          = <[id := o]> (orders Sample.catalogue)
        ∧ length (items o) = 2%nat.
Proof.
  destruct (submission_is_all_or_nothing Sample.morning Sample.cart
              Sample.catalogue "20250307-001") as (_ & Hok & _).
  - by vm_compute.
  - destruct Hok as (id & o & _ & Hor & _ & _ & _ & _ & _ & Hlen & _).
    + split; [sample_well_formed|]. split; [sample_resolve|].
      intros id o Ho. by vm_compute in Ho.
    + exists id, o. split; [exact Hor|exact Hlen].
Defined.

(** ** The day of the order number *)

Lemma count_after_insert (P : string * Order → Prop)
    `{!∀ x, Decision (P x)} (m : gmap string Order) id o :
  m !! id = None →
  size (filter P (<[id := o]> m))
  = (size (filter P m) + if decide (P (id, o)) then 1 else 0)%nat.
Proof.
  intros Hid. case_decide as Hin.
  - rewrite map_filter_insert_True by done.
    rewrite map_size_insert_None; [lia|].
    apply map_lookup_filter_None_2. by left.
  - rewrite map_filter_insert_False by done.
    rewrite delete_id by done. lia.
Qed.

(** X18.  In a time zone without change of offset, the window whose orders
    [generateOrderNumber] counts is the local day of the moment: it starts
    at a local midnight, lasts one day less one millisecond and contains the
    moment, so that an order created at that very moment is counted.  In
    the UTC zone it is the day whose date the number prints.  On a day on
    which the offset changes the window has another length: twenty-five
    hours less one millisecond in Paris on 2025-10-26. *)
Theorem count_window_is_the_local_day minutes t :
  let zone := Date.fixed minutes in
  let todayStart := Date.setHours zone t 0 0 0 0 in
  let todayEnd := Date.setHours zone todayStart 23 59 59 999 in
  todayStart ≤ t ≤ todayEnd
  ∧ todayEnd = todayStart + 86399999
  ∧ (∀ u, todayStart ≤ u ≤ todayEnd
          ↔ Date.local_day zone u = Date.local_day zone t)
  ∧ (minutes = 0 → Date.local_day zone t = t / Date.msPerDay)
  ∧ (let start := Date.setHours Sample.paris 1761472800000 0 0 0 0 in
     Date.setHours Sample.paris start 23 59 59 999 = start + 89999999).
Proof.
  cbv zeta. split; [|split; [|split; [|split]]].
  - apply (in_window_iff minutes t t). done.
  - unfold Date.setHours, Date.LocalTime, Date.UTC, Date.msPerDay. simpl.
    set (q := (t + minutes * 60000) `div` 86400000).
    replace (q * 86400000 + ((0 * 60 + 0) * 60 + 0) * 1000 + 0
             - minutes * 60000 + minutes * 60000)
      with (q * 86400000) by lia.
    rewrite Z.div_mul by done. lia.
  - intros u. apply in_window_iff.
  - intros ->. unfold Date.local_day, Date.LocalTime. simpl. f_equal. lia.
  - reflexivity.
Qed.

(** X19.  A stored order is counted from then on by the counts of the
    windows that contain its creation date, and by no other: after a
    submission that is stored, every count is one more when the database
    clock of the submission lies in its window, and unchanged otherwise. *)
Theorem stored_order_is_counted env d w num gte lte :
  generateOrderNumber env w = (w, inr num) →
  well_formed d →
  (∀ line, line ∈ panier d → is_Some (products w !! item_id line)) →
  (∀ id o, orders w !! id = Some o → number o ≠ num) →
  ∃ c, (prisma.order_count gte lte w).2 = inr c
     ∧ (prisma.order_count gte lte (new_order env d w)).2
       = inr (c + if decide (gte ≤ dbNow env ∧ dbNow env ≤ lte)
                  then 1 else 0).
Proof.
  intros Hnum Hwf Hall Hfree.
  rewrite generateOrderNumber_eq in Hnum. injection Hnum as <-.
  destruct (new_order_stored_eq env d w Hwf Hall Hfree) as [Hid ->].
  unfold prisma.order_count. simpl.
  eexists. split; [reflexivity|]. f_equal.
  rewrite (count_after_insert _ _ _ _ Hid). simpl.
  case_decide; lia.
Qed.

Lemma stored_order_is_counted_witness :
  (prisma.order_count 1741302000000 1741388399999
     (new_order Sample.morning Sample.cart Sample.catalogue)).2 = inr 1.
Proof.
  destruct (stored_order_is_counted Sample.morning Sample.cart
              Sample.catalogue "20250307-001" 1741302000000 1741388399999)
    as (c & Hc & Hc').
  - by vm_compute.
  - sample_well_formed.
  - sample_resolve.
  - intros id o Ho. by vm_compute in Ho.
  - rewrite Hc'. vm_compute in Hc. injection Hc as <-. by vm_compute.
Defined.

(** X20.  Numbers of one day follow each other, in a time zone without
    change of offset: when a submission is stored with a creation date in
    the local day of a later call of the generator, the sequence part of the
    number of that call is one more than it would have been without the
    submission, after the same date part. *)
Theorem next_number_of_the_day env env' d w num minutes :
  generateOrderNumber env w = (w, inr num) →
  well_formed d →
  (∀ line, line ∈ panier d → is_Some (products w !! item_id line)) →
  (∀ id o, orders w !! id = Some o → number o ≠ num) →
  tz env' = Date.fixed minutes →
  Date.local_day (tz env') (dbNow env) = Date.local_day (tz env') (today env') →
  ∃ date c,
    generateOrderNumber env' w
    = (w, inr (date +:+ "-"
                 +:+ JS.padStart 3 "0" (JS.String_of_int (c + 1))))
    ∧ generateOrderNumber env' (new_order env d w)
      = (new_order env d w,
         inr (date +:+ "-"
                +:+ JS.padStart 3 "0" (JS.String_of_int (c + 2)))).
Proof.
  intros Hnum Hwf Hall Hfree Hzone Hday.
  rewrite generateOrderNumber_eq in Hnum. injection Hnum as <-.
  destruct (new_order_stored_eq env d w Hwf Hall Hfree) as [Hid ->].
  rewrite !generateOrderNumber_eq. unfold next_number.
  eexists _, _. split; [reflexivity|]. do 6 f_equal.
  simpl. rewrite (count_after_insert _ _ _ _ Hid). simpl.
  rewrite decide_True; [lia|]. rewrite Hzone in *. by apply in_window_iff.
Qed.

Lemma next_number_of_the_day_witness :
  generateOrderNumber Sample.morning
    (new_order Sample.morning Sample.cart Sample.catalogue)
  = (new_order Sample.morning Sample.cart Sample.catalogue,
     inr "20250307-002").
Proof.
  destruct (next_number_of_the_day Sample.morning Sample.morning Sample.cart
              Sample.catalogue "20250307-001" 60)
    as (date & c & H1 & H2).
  - by vm_compute.
  - sample_well_formed.
  - sample_resolve.
  - intros id o Ho. by vm_compute in Ho.
  - reflexivity.
  - reflexivity.
  - by vm_compute.
Defined.
